(** * Average income per district of Copenhagen: data preparation and redraw

    A shallow embedding of [map-avg-income-districts-cph.py].  The script
    loads a GeoJSON of district boundaries and a CSV of average income per
    district and year, cleans and reshapes the CSV, derives a colour scale,
    declares a slider and redraws a choropleth map for the selected year.

    Modelling choices, all taken from the script:
    - a Python [str] is a [string]: the CSV is decoded as ISO-8859-1, one
      character per byte;
    - the [avg_income] cells are integers, [int64] in pandas:
      [range(min_value_colorbar, max_value_colorbar, 40000)] accepts nothing
      else.  An aggregate of an empty column is NaN; [round] on an [int64]
      goes through double precision and [+ 10000] wraps at 64 bits, as numpy
      does; a table with a cell outside the 64-bit range has a column of
      another dtype and is not followed past the point where it is read;
    - the [year] column is cast to [int64]: a label outside its range raises
      [OverflowError];
    - a [dict] is a [gmap]; a pandas column is a list, a table a list of
      rows or of columns, as the operation at hand reads it;
    - an exception that the script does not catch is an [Err] result, which
      every later startup step propagates;
    - the module-level variables that [update_figure] reads are the fields of
      an explicit [AppState], threaded through the handler by a state monad;
      a second, finer model of the handler runs it against a heap of
      objects, to tell the objects it creates and writes from those that the
      module-level names are bound to.
    The rendering done by the charting library (map tiles, colours, the
    expansion of the hover template in the browser) is not part of the
    script and is not modelled: a figure is the description that the script
    hands to the library. *)

From Stdlib Require Import Ascii String ZArith.
From stdpp Require Import gmap strings list pretty.

Local Open Scope Z_scope.

(** ** Python values and exceptions *)

Inductive PyError :=
  | KeyError (key : string)
  | ValueError (literal : string)
  | OverflowError
  | TypeError.

Inductive Result (A : Type) :=
  | Ok (a : A)
  | Err (e : PyError).
Arguments Ok {A} a.
Arguments Err {A} e.

#[global] Instance Result_ret : MRet Result := λ A a, Ok a.
#[global] Instance Result_bind : MBind Result := λ A B f r,
  match r with
  | Ok a => f a
  | Err e => Err e
  end.
#[global] Instance Result_fmap : FMap Result := λ A B f r,
  match r with
  | Ok a => Ok (f a)
  | Err e => Err e
  end.

(** [[f(x) for x in l]] where [f] may raise: the first exception wins. *)
Fixpoint traverse {A B} (f : A → Result B) (l : list A) : Result (list B) :=
  match l with
  | [] => Ok []
  | x :: l' => y ← f x; ys ← traverse f l'; mret (y :: ys)
  end.

Definition is_Ok {A} (r : Result A) : Prop := ∃ a, r = Ok a.

(** ** Python strings *)

Module PyStr.

(** [s[n:]]: the string without its first [n] characters, empty when it
    has no more than [n]. *)
Fixpoint slice_from (n : nat) (s : string) : string :=
  match n, s with
  | O, _ => s
  | S _, EmptyString => EmptyString
  | S n', String _ s' => slice_from n' s'
  end.

(** [s[:n]], used to name what [slice_from] drops. *)
Fixpoint slice_to (n : nat) (s : string) : string :=
  match n, s with
  | O, _ => EmptyString
  | S _, EmptyString => EmptyString
  | S n', String c s' => String c (slice_to n' s')
  end.

(** [s.replace(old, new)].  [skip] counts the characters of a match of
    [old] that are still to be dropped, which keeps the recursion
    structural on [s].  With an empty [old] Python puts [new] before every
    character and at the end. *)
Fixpoint replace_from (old new : string) (skip : nat) (s : string) : string :=
  match s with
  | EmptyString => EmptyString
  | String c s' =>
      match skip with
      | S k => replace_from old new k s'
      | O =>
          if String.prefix old s
          then new +:+ replace_from old new (String.length old - 1) s'
          else String c (replace_from old new O s')
      end
  end.

Fixpoint intersperse (new : string) (s : string) : string :=
  match s with
  | EmptyString => new
  | String c s' => new +:+ String c (intersperse new s')
  end.

Definition replace (old new s : string) : string :=
  match old with
  | EmptyString => intersperse new s
  | _ => replace_from old new O s
  end.

(** [str(n)] for an integer. *)
Definition str (n : Z) : string := pretty n.

(** The characters that [int] skips around a literal: ASCII whitespace
    (tab to carriage return, and the space) and, of the other code points
    below 256, the two that Unicode counts as whitespace. *)
Definition isspace (c : ascii) : bool :=
  let n := nat_of_ascii c in
  bool_decide (9 ≤ n ≤ 13 ∨ n = 32 ∨ n = 133 ∨ n = 160)%nat.

Fixpoint lstrip (s : string) : string :=
  match s with
  | String c s' => if isspace c then lstrip s' else s
  | EmptyString => EmptyString
  end.

Definition strip (s : string) : string :=
  String.rev (lstrip (String.rev (lstrip s))).

(** The digits of an integer literal: decimal digits, with single
    underscores allowed between two digits. *)
Fixpoint digits_value (acc : N) (after_digit : bool) (s : string) : option N :=
  match s with
  | EmptyString => if after_digit then Some acc else None
  | String c s' =>
      if bool_decide (c = "_"%char)
      then (if after_digit then digits_value acc false s' else None)
      else match Ascii.is_nat c with
           | Some d => digits_value (10 * acc + N.of_nat d)%N true s'
           | None => None
           end
  end.

(** [int(s)]: surrounding whitespace, an optional sign, then digits. *)
Definition int (s : string) : Result Z :=
  let body := strip s in
  let parsed :=
    match body with
    | String "-" r => (λ n, - Z.of_N n) <$> digits_value 0 false r
    | String "+" r => Z.of_N <$> digits_value 0 false r
    | _ => Z.of_N <$> digits_value 0 false body
    end in
  match parsed with
  | Some z => Ok z
  | None => Err (ValueError s)
  end.

(** Grouping of a digit string read from its last character: a comma
    after every third digit that has a digit after it. *)
Fixpoint group3_rev (s : string) : string :=
  match s with
  | String a (String b (String c (String _ _ as rest))) =>
      String a (String b (String c (String "," (group3_rev rest))))
  | _ => s
  end.

Definition insert_thousands (digits : string) : string :=
  String.rev (group3_rev (String.rev digits)).

(** ['{:,d}'.format(n)]: the sign, then the decimal digits in groups of
    three separated by commas. *)
Definition format_comma_d (n : Z) : string :=
  match n with
  | Zneg p => "-" +:+ insert_thousands (pretty (Npos p))
  | _ => insert_thousands (pretty (Z.to_N n))
  end.

End PyStr.

(** ** Python numbers and [range] *)

(** The values of a 64-bit signed integer, and the value that 64-bit
    arithmetic wraps a result to. *)
Definition int64 (z : Z) : Prop := - 2 ^ 63 ≤ z < 2 ^ 63.

#[global] Instance int64_dec z : Decision (int64 z).
Proof. unfold int64. apply _. Defined.

Definition wrap64 (z : Z) : Z := (z + 2 ^ 63) mod 2 ^ 64 - 2 ^ 63.

(** Double precision, as far as [round] on an [int64] needs it.  A finite
    double is a pair [(m, e)] that stands for [m * 2 ^ e]; an operation
    returns the double nearest to the exact result, ties to the even
    mantissa.  The numbers at hand are zero or of a magnitude between
    [10 ^ -4] and [2 ^ 64], where doubles are normal and never overflow. *)
Module Float64.

Definition double : Type := Z * Z.

(** Round half to even of the quotient [x / m], for [0 < m]. *)
Definition rint_div (x m : Z) : Z :=
  let q := x / m in
  let r := x mod m in
  if 2 * r <? m then q
  else if m <? 2 * r then q + 1
  else if Z.even q then q else q + 1.

(** The exponent of the leading bit of [n / d], for [0 < n] and [0 < d]. *)
Definition ilog2 (n d : Z) : Z :=
  let c := Z.log2 n - Z.log2 d in
  if n * 2 ^ Z.max 0 (- c) <? d * 2 ^ Z.max 0 c then c - 1 else c.

(** The double nearest to [n / d], for [0 < d]: a mantissa of 53 bits. *)
Definition round_ratio (n d : Z) : double :=
  if n =? 0 then (0, 0)
  else
    let e := ilog2 (Z.abs n) d - 52 in
    (rint_div (n * 2 ^ Z.max 0 (- e)) (d * 2 ^ Z.max 0 e), e).

(** The conversion of an integer. *)
Definition of_int (x : Z) : double := round_ratio x 1.

(** [a / f] and [k * f] for an integer-valued [f]; [rint a] is integer
    valued and is kept as that integer. *)
Definition div (a : double) (f : Z) : double :=
  round_ratio (a.1 * 2 ^ Z.max 0 a.2) (f * 2 ^ Z.max 0 (- a.2)).

Definition rint (a : double) : Z :=
  if 0 <=? a.2 then a.1 * 2 ^ a.2 else rint_div a.1 (2 ^ (- a.2)).

Definition mul (k f : Z) : double := round_ratio (k * f) 1.

(** The cast to [int64]: the value cut towards zero, and the smallest
    [int64] when that does not fit (the result of the conversion
    instruction of x86-64). *)
Definition to_int64 (a : double) : Z :=
  let v := if 0 <=? a.2 then a.1 * 2 ^ a.2 else Z.quot a.1 (2 ^ (- a.2)) in
  if (- 2 ^ 63 <=? v) && (v <? 2 ^ 63) then v else - 2 ^ 63.

End Float64.

(** What an aggregate of an [int64] column returns: an [int64], or NaN for
    an empty column. *)
Inductive PyNum :=
  | PyInt (z : Z)
  | PyNaN.

Module PyNum.

(** [round(x, ndigits)] on an [int64]: unchanged for [0 <= ndigits], else
    numpy computes [rint(x / 10 ^ -ndigits) * 10 ^ -ndigits] in double
    precision and casts the product back. *)
Definition round_int (x ndigits : Z) : Z :=
  if 0 <=? ndigits then x
  else
    let f := 10 ^ (- ndigits) in
    Float64.to_int64
      (Float64.mul (Float64.rint (Float64.div (Float64.of_int x) f)) f).

Definition round (x : PyNum) (ndigits : Z) : PyNum :=
  match x with
  | PyInt z => PyInt (round_int z ndigits)
  | PyNaN => PyNaN
  end.

(** [x + k] and [x - k] on an [int64] wrap. *)
Definition add (x : PyNum) (k : Z) : PyNum :=
  match x with
  | PyInt z => PyInt (wrap64 (z + k))
  | PyNaN => PyNaN
  end.

Definition sub (x : PyNum) (k : Z) : PyNum :=
  match x with
  | PyInt z => PyInt (wrap64 (z - k))
  | PyNaN => PyNaN
  end.

(** An argument of [range] must be an integer. *)
Definition index (x : PyNum) : Result Z :=
  match x with
  | PyInt z => Ok z
  | PyNaN => Err TypeError
  end.

End PyNum.

(** The number of elements of [range(lo, hi, step)]. *)
Definition range_length (lo hi step : Z) : Z :=
  if (0 <? step) && (lo <? hi) then 1 + (hi - 1 - lo) / step
  else if (step <? 0) && (hi <? lo) then 1 + (lo - 1 - hi) / (- step)
  else 0.

Definition range_items (lo hi step : Z) : list Z :=
  (λ i : nat, lo + Z.of_nat i * step) <$> seq 0 (Z.to_nat (range_length lo hi step)).

(** [list(range(lo, hi, step))]. *)
Definition range (lo hi : PyNum) (step : Z) : Result (list Z) :=
  a ← PyNum.index lo;
  b ← PyNum.index hi;
  if bool_decide (step = 0) then Err (ValueError "range() arg 3 must not be zero")
  else mret (range_items a b step).

(** ** Tables *)

(** The CSV as [read_csv] returns it: the [district] column and, in the
    order of the header, the other columns, each with its label.  The cells
    of the other columns are integers, as in the data file; a table with a
    decimal or an empty cell, which pandas holds as floats, is not
    described. *)
Record WideFrame := {
  wide_district : list string;
  wide_columns : list (string * list Z)
}.

(** Every column of a table has one cell per row. *)
Definition rectangular (df : WideFrame) : Prop :=
  Forall (λ col, length col.2 = length (wide_district df)) (wide_columns df).

#[global] Instance rectangular_dec df : Decision (rectangular df).
Proof. unfold rectangular. apply _. Defined.

(** A row of the long table.  The type of [year] changes with [astype], and
    the [id] column is [()] until it is created. *)
Record Row (Y I : Type) := {
  district : string;
  year : Y;
  avg_income : Z;
  id : I
}.
Arguments district {Y I} _.
Arguments year {Y I} _.
Arguments avg_income {Y I} _.
Arguments id {Y I} _.

Module Pandas.

(** [series.str[n:]]. *)
Definition str_slice_from (n : nat) (col : list string) : list string :=
  PyStr.slice_from n <$> col.

(** [series.replace({old: new})]: a cell equal to [old] becomes [new]. *)
Definition replace_value (old new : string) (cell : string) : string :=
  if decide (cell = old) then new else cell.

Definition replace (old new : string) (col : list string) : list string :=
  replace_value old new <$> col.

(** [df.melt(id_vars='district', var_name='year', value_name='avg_income')]:
    the columns one below the other, each cell with the district of its
    row and the label of its column. *)
Definition melt_column (ids : list string) (col : string * list Z)
    : list (Row string ()) :=
  (λ dv : string * Z,
     {| district := dv.1; year := col.1; avg_income := dv.2; id := () |})
  <$> zip ids col.2.

Definition melt (df : WideFrame) : list (Row string ()) :=
  mjoin (melt_column (wide_district df) <$> wide_columns df).

(** The cast of one label to [int64]: [int] reads it, and the integer must
    fit. *)
Definition to_int64 (label : string) : Result Z :=
  y ← PyStr.int label;
  if bool_decide (int64 y) then Ok y else Err OverflowError.

(** [df['year'] = df['year'].astype(int)]. *)
Definition astype_int (rows : list (Row string ())) : Result (list (Row Z ())) :=
  traverse
    (λ r, y ← to_int64 (year r);
          mret {| district := district r; year := y;
                  avg_income := avg_income r; id := () |})
    rows.

(** [series.max()] and [series.min()]. *)
Definition max (col : list Z) : PyNum :=
  match col with
  | [] => PyNaN
  | x :: col' => PyInt (foldl Z.max x col')
  end.

Definition min (col : list Z) : PyNum :=
  match col with
  | [] => PyNaN
  | x :: col' => PyInt (foldl Z.min x col')
  end.

(** [series.unique()]: the distinct values in order of first appearance. *)
Definition unique (col : list Z) : list Z :=
  reverse (remove_dups (reverse col)).

End Pandas.

(** ** The geo data *)

(** A feature id of the boundary file: a JSON number or a JSON string. *)
Inductive FeatureId :=
  | IdInt (n : Z)
  | IdStr (s : string).

#[global] Instance FeatureId_eq_dec : EqDecision FeatureId.
Proof. solve_decision. Defined.

(** What the script reads of a feature: [feature["properties"]["navn"]] and
    [feature["id"]].  Every feature has both: on a boundary file with a
    feature that lacks one, the loop raises [KeyError] before anything else
    is read. *)
Record Feature := {
  navn : string;
  feature_id : FeatureId
}.

(** The loop that fills [districts_id_map]: a later feature with the same
    name overwrites an earlier one. *)
Definition build_id_map (features : list Feature) : gmap string FeatureId :=
  foldl (λ m feature, <[navn feature := feature_id feature]> m) ∅ features.

(** ** Startup: cleaning, reshaping, ids and colour scale *)

Definition misspelt_name : string := "Vesterbro/Kongens Enghave".
Definition corrected_name : string := "Vesterbro-Kongens Enghave".

(** Lines 25 and 28: the prefix is cut, then the one name is corrected.
    The in-place [replace] acts on the column of the frame, as pandas does
    without copy-on-write. *)
Definition clean_districts (col : list string) : list string :=
  Pandas.replace misspelt_name corrected_name (Pandas.str_slice_from 11 col).

Definition clean (df : WideFrame) : WideFrame :=
  {| wide_district := clean_districts (wide_district df);
     wide_columns := wide_columns df |}.

(** Line 39: [districts_id_map[x]] for the district of every row. *)
Definition lookup_id (m : gmap string FeatureId) (r : Row Z ())
    : Result (Row Z FeatureId) :=
  match m !! district r with
  | Some i => Ok {| district := district r; year := year r;
                    avg_income := avg_income r; id := i |}
  | None => Err (KeyError (district r))
  end.

Definition attach_ids (m : gmap string FeatureId) (rows : list (Row Z ()))
    : Result (list (Row Z FeatureId)) :=
  traverse (lookup_id m) rows.

(** The income column is an [int64] column when every cell fits, and the
    rounding and padding below are those of [int64].  A column with a
    larger cell has another dtype, which is not followed here: the run ends
    at this point (under numpy 1 with [TypeError], an unsigned 64-bit
    number plus [10000] being a float that [range] refuses). *)
Definition int64_column (incomes : list Z) : Result () :=
  if bool_decide (Forall int64 incomes) then Ok () else Err TypeError.

(** Lines 42 to 54. *)
Definition max_value_colorbar_of (incomes : list Z) : PyNum :=
  PyNum.add (PyNum.round (Pandas.max incomes) (-4)) 10000.

Definition min_value_colorbar_of (incomes : list Z) : PyNum :=
  PyNum.sub (PyNum.round (Pandas.min incomes) (-4)) 10000.

Definition colorbar_text_of (values : list Z) : list string :=
  PyStr.format_comma_d <$> values.

(** The loop of lines 52 to 54, appending to [colorbar_text_dot]. *)
Definition colorbar_text_dot_of (text : list string) : list string :=
  foldl (λ acc s, acc ++ [PyStr.replace "," "." s]) [] text.

(** The module-level variables that the layout and the handler read. *)
Record AppState := {
  districts_cph : list Feature;
  districts_id_map : gmap string FeatureId;
  df_income_long : list (Row Z FeatureId);
  max_value_colorbar : Z;
  min_value_colorbar : Z;
  colorbar_values : list Z;
  colorbar_text_dot : list string
}.

(** Lines 14 to 54, from the parsed files to the state, or to the first
    exception. *)
Definition startup (features : list Feature) (csv : WideFrame) : Result AppState :=
  let id_map := build_id_map features in
  let df_income := clean csv in
  long ← Pandas.astype_int (Pandas.melt df_income);
  long ← attach_ids id_map long;
  let incomes := avg_income <$> long in
  _ ← int64_column incomes;
  let hi := max_value_colorbar_of incomes in
  let lo := min_value_colorbar_of incomes in
  values ← range lo hi 40000;
  hi ← PyNum.index hi;
  lo ← PyNum.index lo;
  mret {| districts_cph := features;
          districts_id_map := id_map;
          df_income_long := long;
          max_value_colorbar := hi;
          min_value_colorbar := lo;
          colorbar_values := values;
          colorbar_text_dot := colorbar_text_dot_of (colorbar_text_of values) |}.

(** ** The year slider *)

Record Slider := {
  slider_id : string;
  slider_min : PyNum;
  slider_max : PyNum;
  slider_value : PyNum;
  slider_marks : gmap string string;
  slider_step : option Z;
  slider_included : bool
}.

(** [{str(year): str(year) for year in years}]. *)
Definition marks_of (years : list Z) : gmap string string :=
  foldl (λ m y, <[PyStr.str y := PyStr.str y]> m) ∅ years.

(** Lines 81 to 90. *)
Definition year_slider (st : AppState) : Slider :=
  let years := year <$> df_income_long st in
  {| slider_id := "year-slider";
     slider_min := Pandas.min years;
     slider_max := Pandas.max years;
     slider_value := Pandas.max years;
     slider_marks := marks_of (Pandas.unique years);
     slider_step := None;
     slider_included := false |}.

(** ** The redraw handler *)

(** The choropleth trace: one location, one colour value and one custom-data
    triple per row of the frame it is built from. *)
Record Trace := {
  locations : list FeatureId;
  z : list Z;
  customdata : list (string * Z * Z);
  geojson : list Feature;
  hovertemplate : string
}.

Record Layout := {
  color_continuous_scale : string;
  range_color : Z * Z;
  mapbox_style : string;
  height : Z;
  dragmode : bool;
  separators : string;
  colorbar_title : string;
  tickvals : list Z;
  ticktext : list string
}.

Record Figure := {
  trace : Trace;
  layout : Layout
}.

(** [px.choropleth_mapbox(frame, locations="id", color="avg_income",
    custom_data=["district", "year", "avg_income"], ...)].  What the two
    updates that follow overwrite (the hover template, the ticks, the
    separators, the drag mode) is left at an empty default here. *)
Definition choropleth_mapbox (frame : list (Row Z FeatureId))
    (geo : list Feature) (range : Z * Z) : Figure :=
  {| trace := {| locations := id <$> frame;
                 z := avg_income <$> frame;
                 customdata := (λ r, (district r, year r, avg_income r)) <$> frame;
                 geojson := geo;
                 hovertemplate := "" |};
     layout := {| color_continuous_scale := "YlGn";
                  range_color := range;
                  mapbox_style := "carto-positron";
                  height := 800;
                  dragmode := true;
                  separators := "";
                  colorbar_title := "Average income";
                  tickvals := [];
                  ticktext := [] |} |}.

Definition update_layout (fig : Figure) (vals : list Z) (text : list string)
    : Figure :=
  {| trace := trace fig;
     layout := {| color_continuous_scale := color_continuous_scale (layout fig);
                  range_color := range_color (layout fig);
                  mapbox_style := mapbox_style (layout fig);
                  height := height (layout fig);
                  dragmode := false;
                  separators := ",.";
                  colorbar_title := "Average income";
                  tickvals := vals;
                  ticktext := text |} |}.

Definition update_traces (fig : Figure) (template : string) : Figure :=
  {| trace := {| locations := locations (trace fig);
                 z := z (trace fig);
                 customdata := customdata (trace fig);
                 geojson := geojson (trace fig);
                 hovertemplate := template |};
     layout := layout fig |}.

(** Lines 143 to 145. *)
Definition hover_template : string :=
  "</br><b>%{customdata[0]}</b></br>" +:+
  "Year: %{customdata[1]}</br>" +:+
  "Avg. income: %{customdata[2]:,.d} dkr.".

(** A computation that runs against the module-level state. *)
Definition Handler (A : Type) : Type := AppState → A * AppState.

#[global] Instance Handler_ret : MRet Handler := λ A a st, (a, st).
#[global] Instance Handler_bind : MBind Handler := λ A B f h st,
  let '(a, st') := h st in f a st'.

(** Reading a module-level variable. *)
Definition global {A} (field : AppState → A) : Handler A :=
  λ st, (field st, st).

(** [df[df.year == selected_year]]: a new frame with the matching rows. *)
Definition filter_year (selected_year : Z) (df : list (Row Z FeatureId))
    : list (Row Z FeatureId) :=
  filter (λ r, year r = selected_year) df.

(** Lines 104 to 147. *)
Definition update_figure (selected_year : Z) : Handler Figure :=
  df ← global df_income_long;
  let filtered_df := filter_year selected_year df in
  geo ← global districts_cph;
  lo ← global min_value_colorbar;
  hi ← global max_value_colorbar;
  let fig := choropleth_mapbox filtered_df geo (lo, hi) in
  vals ← global colorbar_values;
  text ← global colorbar_text_dot;
  let fig := update_layout fig vals text in
  let fig := update_traces fig hover_template in
  mret fig.

(** ** The handler against the objects of the process

    The objects that the module-level names are bound to, and those that the
    handler creates, in a heap addressed by position.  The handler reads the
    former, creates a frame and a figure, and updates the figure in place:
    [df[...]] and [px.choropleth_mapbox] return new objects, and
    [fig.update_layout] and [fig.update_traces] write to [fig]. *)

Inductive Obj :=
  | ObjGeo (features : list Feature)
  | ObjMap (m : gmap string FeatureId)
  | ObjFrame (rows : list (Row Z FeatureId))
  | ObjInt (z : Z)
  | ObjInts (l : list Z)
  | ObjStrs (l : list string)
  | ObjFigure (fig : Figure).

Abbreviation Heap := (list Obj).

(** The addresses that the module-level names are bound to. *)
Record Names := {
  name_districts_cph : nat;
  name_districts_id_map : nat;
  name_df_income_long : nat;
  name_max_value_colorbar : nat;
  name_min_value_colorbar : nat;
  name_colorbar_values : nat;
  name_colorbar_text_dot : nat
}.

(** The heap that startup leaves, in the order of the assignments. *)
Definition module_objects (st : AppState) : Heap :=
  [ ObjGeo (districts_cph st);
    ObjMap (districts_id_map st);
    ObjFrame (df_income_long st);
    ObjInt (max_value_colorbar st);
    ObjInt (min_value_colorbar st);
    ObjInts (colorbar_values st);
    ObjStrs (colorbar_text_dot st) ].

Definition module_names : Names :=
  {| name_districts_cph := 0;
     name_districts_id_map := 1;
     name_df_income_long := 2;
     name_max_value_colorbar := 3;
     name_min_value_colorbar := 4;
     name_colorbar_values := 5;
     name_colorbar_text_dot := 6 |}.

(** A run against the heap; [None] when an address holds no object of the
    kind that is asked for. *)
Definition Run (A : Type) : Type := Heap → option (A * Heap).

#[global] Instance Run_ret : MRet Run := λ A a h, Some (a, h).
#[global] Instance Run_bind : MBind Run := λ A B f run h,
  match run h with
  | Some (a, h') => f a h'
  | None => None
  end.

(** A new object, at the first free address. *)
Definition new (o : Obj) : Run nat := λ h, Some (length h, h ++ [o]).

Definition get (l : nat) : Run Obj := λ h,
  match h !! l with
  | Some o => Some (o, h)
  | None => None
  end.

(** A write to an object that exists. *)
Definition set (l : nat) (o : Obj) : Run () := λ h,
  if decide (l < length h)%nat then Some ((), <[l := o]> h) else None.

Definition wrong_kind {A} : Run A := λ _, None.

Definition get_frame (l : nat) : Run (list (Row Z FeatureId)) :=
  o ← get l; match o with ObjFrame rows => mret rows | _ => wrong_kind end.

Definition get_geo (l : nat) : Run (list Feature) :=
  o ← get l; match o with ObjGeo features => mret features | _ => wrong_kind end.

Definition get_int (l : nat) : Run Z :=
  o ← get l; match o with ObjInt z => mret z | _ => wrong_kind end.

Definition get_ints (l : nat) : Run (list Z) :=
  o ← get l; match o with ObjInts zs => mret zs | _ => wrong_kind end.

Definition get_strs (l : nat) : Run (list string) :=
  o ← get l; match o with ObjStrs ss => mret ss | _ => wrong_kind end.

Definition get_figure (l : nat) : Run Figure :=
  o ← get l; match o with ObjFigure fig => mret fig | _ => wrong_kind end.

(** Lines 104 to 147, object by object; the result is the address of the
    figure. *)
Definition update_figure_run (names : Names) (selected_year : Z) : Run nat :=
  df ← get_frame (name_df_income_long names);
  filtered_df ← new (ObjFrame (filter_year selected_year df));
  frame ← get_frame filtered_df;
  geo ← get_geo (name_districts_cph names);
  lo ← get_int (name_min_value_colorbar names);
  hi ← get_int (name_max_value_colorbar names);
  fig ← new (ObjFigure (choropleth_mapbox frame geo (lo, hi)));
  vals ← get_ints (name_colorbar_values names);
  text ← get_strs (name_colorbar_text_dot names);
  f ← get_figure fig;
  _ ← set fig (ObjFigure (update_layout f vals text));
  f ← get_figure fig;
  _ ← set fig (ObjFigure (update_traces f hover_template));
  mret fig.
(** ** Relations used to state the properties *)

(** What [astype_int] leaves of a row: the year is the integer that its
    label denotes, the other cells are kept. *)
Definition cast_of (r : Row string ()) (r' : Row Z ()) : Prop :=
  PyStr.int (year r) = Ok (year r') ∧ int64 (year r')
  ∧ district r' = district r ∧ avg_income r' = avg_income r.

(** A label that the cast to [int64] accepts. *)
Definition castable (label : string) : Prop :=
  ∃ y, PyStr.int label = Ok y ∧ int64 y.

(** An income that [round] treats exactly: below this magnitude the double
    precision of numpy loses nothing and the padding does not wrap. *)
Definition moderate (x : Z) : Prop := Z.abs x ≤ 10 ^ 15.

#[global] Instance moderate_dec x : Decision (moderate x).
Proof. unfold moderate. apply _. Defined.

(** What [attach_ids] makes of a row: the [id] cell is the entry of the
    district in the lookup, the other cells are kept. *)
Definition with_id_of (m : gmap string FeatureId)
    (r : Row Z ()) (r' : Row Z FeatureId) : Prop :=
  m !! district r = Some (id r') ∧ district r' = district r
  ∧ year r' = year r ∧ avg_income r' = avg_income r.

(** The cells that the long table has before the [id] column is added. *)
Definition cells {Y I} (r : Row Y I) : string * Y * Z :=
  (district r, year r, avg_income r).

(** The largest and the smallest value of a column. *)
Definition maximum_of (col : list Z) (m : Z) : Prop :=
  m ∈ col ∧ ∀ x, x ∈ col → x ≤ m.

Definition minimum_of (col : list Z) (m : Z) : Prop :=
  m ∈ col ∧ ∀ x, x ∈ col → m ≤ x.

(** [r] is a multiple of [m] and no multiple of [m] is nearer to [x]. *)
Definition nearest_multiple (m x r : Z) : Prop :=
  (m | r) ∧ ∀ r', (m | r') → Z.abs (x - r) ≤ Z.abs (x - r').

(** Ticks in strictly increasing order, and ticks a fixed step apart. *)
Definition increasing (ticks : list Z) : Prop :=
  ∀ i j a b, (i < j)%nat → ticks !! i = Some a → ticks !! j = Some b → a < b.

Definition evenly_spaced (step : Z) (ticks : list Z) : Prop :=
  ∀ i a b, ticks !! i = Some a → ticks !! S i = Some b → b = a + step.

(** The first tick is at most every income and the last tick is at least
    every income. *)
Definition ticks_bound (incomes ticks : list Z) : Prop :=
  ∃ lo hi, head ticks = Some lo ∧ last ticks = Some hi
    ∧ ∀ x, x ∈ incomes → lo ≤ x ≤ hi.

(** The three decimal digits of a number below 1,000, zeros included. *)
Definition three_digits (m : N) : string :=
  String (pretty_N_char (m `div` 100))
    (String (pretty_N_char ((m `div` 10) `mod` 10))
       (String (pretty_N_char (m `mod` 10)) "")).

(** An unsigned integer written with a dot as thousands separator: below
    1,000 its decimal digits; from 1,000 on the thousands written the same
    way, a dot, and the three digits of the rest. *)
Inductive dot_grouped : N → string → Prop :=
  | dot_grouped_units n :
      (n < 1000)%N → dot_grouped n (pretty n)
  | dot_grouped_thousands n s :
      (1000 ≤ n)%N →
      dot_grouped (n `div` 1000) s →
      dot_grouped n (s +:+ "." +:+ three_digits (n `mod` 1000)).

(** The same for a signed integer: a minus sign before the digits of a
    negative one. *)
Definition dot_separated (n : Z) (s : string) : Prop :=
  if decide (n < 0) then ∃ s', s = "-" +:+ s' ∧ dot_grouped (Z.abs_N n) s'
  else dot_grouped (Z.to_N n) s.

(** A string without a comma. *)
Fixpoint comma_free (s : string) : Prop :=
  match s with
  | EmptyString => True
  | String c s' => c ≠ ","%char ∧ comma_free s'
  end.

(** A row of the long table that startup keeps, against the row of the
    melted table it comes from. *)
Definition long_row_of (m : gmap string FeatureId)
    (r : Row string ()) (r' : Row Z FeatureId) : Prop :=
  PyStr.int (year r) = Ok (year r') ∧ district r' = district r
  ∧ avg_income r' = avg_income r ∧ m !! district r = Some (id r').

(** No two year columns of the CSV are cast to the same year. *)
Definition distinct_years (csv : WideFrame) : Prop :=
  NoDup ((λ col, PyStr.int col.1) <$> wide_columns csv).

(** A reference of the hover template to the [k]-th custom-data cell of the
    hovered region, with an optional number format. *)
Definition placeholder (k : nat) (format : string) : string :=
  "%{customdata[" +:+ pretty k +:+ "]" +:+ format +:+ "}".

(** ** Sample data

    Two districts and two years in the layout of the two data files. *)

Definition sample_features : list Feature :=
  [ {| navn := "Indre By"; feature_id := IdInt 1 |};
    {| navn := "Vesterbro-Kongens Enghave"; feature_id := IdInt 5 |} ].

Definition sample_csv : WideFrame :=
  {| wide_district :=
       [ "Bydel - 01 Indre By"; "Bydel - 05 Vesterbro/Kongens Enghave" ];
     wide_columns :=
       [ ("2018", [331000; 265200]); ("2019", [343500; 271900]) ] |}.

(** The same table with a district that the boundary file does not have. *)
Definition sample_csv_unknown : WideFrame :=
  {| wide_district := [ "Bydel - 01 Indre By"; "Bydel - 11 Atlantis" ];
     wide_columns := wide_columns sample_csv |}.

Definition sample_long : list (Row Z FeatureId) :=
  [ {| district := "Indre By"; year := 2018; avg_income := 331000; id := IdInt 1 |};
    {| district := "Vesterbro-Kongens Enghave"; year := 2018;
       avg_income := 265200; id := IdInt 5 |};
    {| district := "Indre By"; year := 2019; avg_income := 343500; id := IdInt 1 |};
    {| district := "Vesterbro-Kongens Enghave"; year := 2019;
       avg_income := 271900; id := IdInt 5 |} ].

Definition sample_state : AppState :=
  {| districts_cph := sample_features;
     districts_id_map := build_id_map sample_features;
     df_income_long := sample_long;
     max_value_colorbar := 350000;
     min_value_colorbar := 260000;
     colorbar_values := [260000; 300000; 340000];
     colorbar_text_dot := ["260.000"; "300.000"; "340.000"] |}.

(** ** Further relations and samples *)

(** The character [c] occurs in [s]. *)
Fixpoint contains (c : ascii) (s : string) : Prop :=
  match s with
  | EmptyString => False
  | String c' s' => c' = c ∨ contains c s'
  end.

(** The sample with a second column for 2018, labelled as [read_csv]
    labels a repeated header. *)
Definition sample_csv_repeated_year : WideFrame :=
  {| wide_district := wide_district sample_csv;
     wide_columns :=
       [ ("2018", [331000; 265200]); ("2018.1", [343500; 271900]) ] |}.

(** A header line without any district row. *)
Definition sample_csv_no_rows : WideFrame :=
  {| wide_district := [];
     wide_columns := [ ("2018", []); ("2019", []) ] |}.

(** Two features of the same name. *)
Definition sample_features_twice : list Feature :=
  [ {| navn := "Indre By"; feature_id := IdInt 1 |};
    {| navn := "Amager Vest"; feature_id := IdStr "a" |};
    {| navn := "Indre By"; feature_id := IdInt 7 |} ].

(** The sample with two columns that are cast to the same year. *)
Definition sample_csv_same_year : WideFrame :=
  {| wide_district := wide_district sample_csv;
     wide_columns :=
       [ ("2018", [331000; 265200]); (" 2018", [343500; 271900]) ] |}.

(** One district with an income above [2 ^ 53]. *)
Definition sample_csv_large : WideFrame :=
  {| wide_district := [ "Bydel - 01 Indre By" ];
     wide_columns := [ ("2019", [9007199254745001]) ] |}.

(** What startup makes of it: [round] gives 9,007,199,254,740,000 for the
    income, which is 5,001 below it. *)
Definition sample_state_large : AppState :=
  {| districts_cph := sample_features;
     districts_id_map := build_id_map sample_features;
     df_income_long :=
       [ {| district := "Indre By"; year := 2019;
            avg_income := 9007199254745001; id := IdInt 1 |} ];
     max_value_colorbar := 9007199254750000;
     min_value_colorbar := 9007199254730000;
     colorbar_values := [9007199254730000];
     colorbar_text_dot := ["9.007.199.254.730.000"] |}.

(** A first label beyond the 64-bit range. *)
Definition sample_csv_long_label : WideFrame :=
  {| wide_district := wide_district sample_csv;
     wide_columns :=
       [ ("9223372036854775808", [331000; 265200]);
         ("2019", [343500; 271900]) ] |}.

(** * Properties *)

(** ** Running the model on the sample *)

Example slice_from_11 :
  PyStr.slice_from 11 "Bydel - 01 Indre By" = "Indre By".
Proof. reflexivity. Qed.

Example format_comma_d_runs :
  PyStr.format_comma_d 1234567 = "1,234,567"
  ∧ PyStr.format_comma_d (-1000) = "-1,000"
  ∧ PyStr.format_comma_d 999 = "999" ∧ PyStr.format_comma_d 0 = "0".
Proof. vm_compute. done. Qed.

Example replace_runs :
  PyStr.replace "," "." "1,234,567" = "1.234.567"
  ∧ PyStr.replace "ab" "x" "aabab" = "axx"
  ∧ PyStr.replace "" "-" "ab" = "-a-b-".
Proof. vm_compute. done. Qed.

Example int_runs :
  PyStr.int " 2019 " = Ok 2019 ∧ PyStr.int "-1_0" = Ok (-10)
  ∧ PyStr.int "20.0" = Err (ValueError "20.0")
  ∧ PyStr.int "" = Err (ValueError "").
Proof. vm_compute. done. Qed.

Example int_keeps_separator_characters :
  PyStr.int (String (ascii_of_nat 31) "2019")
  = Err (ValueError (String (ascii_of_nat 31) "2019"))
  ∧ PyStr.int (String (ascii_of_nat 160) "2019") = Ok 2019.
Proof. vm_compute. done. Qed.

Example to_int64_runs :
  Pandas.to_int64 "9223372036854775807" = Ok (2 ^ 63 - 1)
  ∧ Pandas.to_int64 "9223372036854775808" = Err OverflowError
  ∧ Pandas.to_int64 "-9223372036854775809" = Err OverflowError
  ∧ Pandas.to_int64 "x" = Err (ValueError "x").
Proof. vm_compute. done. Qed.

Example round_runs :
  PyNum.round_int 343500 (-4) = 340000 ∧ PyNum.round_int 265200 (-4) = 270000
  ∧ PyNum.round_int 345000 (-4) = 340000 ∧ PyNum.round_int 355000 (-4) = 360000
  ∧ PyNum.round_int (-15000) (-4) = -20000.
Proof. vm_compute. done. Qed.

Example round_runs_in_double_precision :
  PyNum.round_int 9007199254745001 (-4) = 9007199254740000
  ∧ PyNum.round_int 9000000000000010000 (-4) = 9000000000000010240
  ∧ PyNum.round_int (2 ^ 63 - 1) (-4) = - 2 ^ 63
  ∧ PyNum.sub (PyInt (- 2 ^ 63)) 10000 = PyInt 9223372036854765808
  ∧ PyNum.add (PyInt (- 2 ^ 63)) 10000 = PyInt (-9223372036854765808).
Proof. vm_compute. done. Qed.

Example double_runs :
  Float64.of_int 1 = (2 ^ 52, -52)
  ∧ Float64.of_int (2 ^ 53 + 1) = (2 ^ 52, 1)
  ∧ Float64.of_int (2 ^ 53 + 3) = (2 ^ 52 + 2, 1)
  ∧ Float64.div (Float64.of_int 1) 10000 = (7378697629483821, -66).
Proof. vm_compute. done. Qed.

Example range_runs :
  range (PyInt 260000) (PyInt 350000) 40000 = Ok [260000; 300000; 340000]
  ∧ range (PyInt 0) (PyInt 80000) 40000 = Ok [0; 40000]
  ∧ range (PyInt 5) (PyInt 5) 40000 = Ok []
  ∧ range PyNaN PyNaN 40000 = Err TypeError.
Proof. vm_compute. done. Qed.

Example startup_sample : startup sample_features sample_csv = Ok sample_state.
Proof. vm_compute. reflexivity. Qed.

Example startup_unknown_district :
  startup sample_features sample_csv_unknown = Err (KeyError "Atlantis").
Proof. vm_compute. reflexivity. Qed.

(** ** Exceptions in a comprehension *)

Section traverse.
Context {A B : Type} (f : A → Result B).

Lemma traverse_Ok l l' :
  traverse f l = Ok l' ↔ Forall2 (λ x y, f x = Ok y) l l'.
Proof.
  revert l'. induction l as [|x l IH]; intros l'; simpl.
  - split; [intros [= <-]; constructor | by inversion 1].
  - split.
    + destruct (f x) as [y|e] eqn:Hx; [|done].
      destruct (traverse f l) as [ys|e] eqn:Hl; [|done].
      intros [= <-]. constructor; [done | by apply IH].
    + inversion 1 as [|? y ? ys Hy Hys]; subst.
      apply IH in Hys. by rewrite Hy, Hys.
Qed.

Lemma traverse_all_Ok l :
  Forall (λ x, is_Ok (f x)) l → is_Ok (traverse f l).
Proof.
  induction 1 as [|x l [y Hy] _ [ys Hys]]; simpl.
  - by eexists.
  - rewrite Hy; simpl. rewrite Hys; simpl. by eexists.
Qed.

Lemma traverse_some_Err l :
  Exists (λ x, ¬ is_Ok (f x)) l →
  ∃ l1 x l2 e, l = l1 ++ x :: l2 ∧ Forall (λ x, is_Ok (f x)) l1
    ∧ f x = Err e ∧ traverse f l = Err e.
Proof.
  induction l as [|x l IH]; intros Hex; [by inversion Hex|].
  destruct (f x) as [y|e] eqn:Hx.
  - assert (Exists (λ x, ¬ is_Ok (f x)) l) as Hl.
    { inversion Hex as [?? Hn|]; subst; [|done].
      destruct Hn. by eexists. }
    destruct (IH Hl) as (l1 & x' & l2 & e & -> & Hall & Hx' & Htr).
    exists (x :: l1), x', l2, e. split_and!; [done| |done|].
    + constructor; [by eexists|done].
    + simpl. rewrite Hx; simpl. by rewrite Htr.
  - exists [], x, l, e. split_and!; [done|constructor|done|].
    simpl. by rewrite Hx.
Qed.
End traverse.

(** ** Strings *)

Lemma string_append_cons c s t : String c s +:+ t = String c (s +:+ t).
Proof. reflexivity. Qed.

Lemma string_append_nil_r s : s +:+ "" = s.
Proof. induction s as [|c s IH]; [done|]. by rewrite string_append_cons, IH. Qed.

Lemma string_append_assoc s t u : (s +:+ t) +:+ u = s +:+ (t +:+ u).
Proof. induction s as [|c s IH]; [done|]. by rewrite !string_append_cons, IH. Qed.

Lemma string_append_length s t :
  String.length (s +:+ t) = (String.length s + String.length t)%nat.
Proof. induction s as [|c s IH]; [done|]. rewrite string_append_cons; simpl. by rewrite IH. Qed.

Lemma slice_to_from n s : PyStr.slice_to n s +:+ PyStr.slice_from n s = s.
Proof.
  revert s. induction n as [|n IH]; intros [|c s]; simpl; [done..|].
  by rewrite string_append_cons, IH.
Qed.

Lemma slice_to_length n s :
  String.length (PyStr.slice_to n s) = (n `min` String.length s)%nat.
Proof.
  revert s. induction n as [|n IH]; intros [|c s]; simpl; [done..|].
  by rewrite IH.
Qed.

(** ** Decimal digits and thousands separators *)

Lemma pretty_N_go_app x s : pretty_N_go x s = pretty_N_go x "" +:+ s.
Proof.
  revert s. induction (N.lt_wf_0 x) as [x _ IH]; intros s.
  destruct (decide (x = 0%N)) as [->|Hx]; [done|].
  rewrite !(pretty_N_go_step x) by lia.
  rewrite (IH (x `div` 10)%N) by (apply N.div_lt; lia).
  rewrite (IH (x `div` 10)%N ltac:(apply N.div_lt; lia) (String _ "")).
  by rewrite string_append_assoc.
Qed.

Lemma pretty_N_digit (n : N) :
  (n < 10)%N → pretty n = String (pretty_N_char n) "".
Proof.
  intros Hn. unfold pretty, pretty_N. case_decide as H0; [by subst|].
  rewrite pretty_N_go_step by lia.
  rewrite N.div_small, N.mod_small by done. done.
Qed.

Lemma pretty_N_snoc (n : N) :
  (10 ≤ n)%N →
  pretty n = pretty (n `div` 10)%N +:+ String (pretty_N_char (n `mod` 10)) "".
Proof.
  intros Hn. unfold pretty, pretty_N.
  assert (n `div` 10 ≠ 0)%N as Hq.
  { zify; Z.to_euclidean_division_equations; lia. }
  rewrite !decide_False by lia.
  rewrite pretty_N_go_step by lia. apply pretty_N_go_app.
Qed.

Lemma pretty_N_thousands (n : N) :
  (1000 ≤ n)%N →
  pretty n = pretty (n `div` 1000)%N +:+ three_digits (n `mod` 1000).
Proof.
  intros Hn.
  rewrite (pretty_N_snoc n) by lia.
  rewrite (pretty_N_snoc (n `div` 10))
    by (zify; Z.to_euclidean_division_equations; lia).
  rewrite (pretty_N_snoc ((n `div` 10) `div` 10))
    by (zify; Z.to_euclidean_division_equations; lia).
  rewrite !string_append_assoc. unfold three_digits.
  replace (((n `div` 10) `div` 10) `div` 10)%N with (n `div` 1000)%N
    by (zify; Z.to_euclidean_division_equations; lia).
  replace (((n `div` 10) `div` 10) `mod` 10)%N
    with ((n `mod` 1000) `div` 100)%N
    by (zify; Z.to_euclidean_division_equations; lia).
  replace ((n `div` 10) `mod` 10)%N
    with (((n `mod` 1000) `div` 10) `mod` 10)%N
    by (zify; Z.to_euclidean_division_equations; lia).
  replace (n `mod` 10)%N with ((n `mod` 1000) `mod` 10)%N
    by (zify; Z.to_euclidean_division_equations; lia).
  done.
Qed.

Lemma string_rev_app_append s t : String.rev_app s t = String.rev s +:+ t.
Proof.
  unfold String.rev. revert t. induction s as [|c s IH]; intros t; [done|].
  simpl. rewrite (IH (String c t)), (IH (String c "")).
  by rewrite string_append_assoc.
Qed.

Lemma string_rev_cons c s : String.rev (String c s) = String.rev s +:+ String c "".
Proof. unfold String.rev at 1. simpl. apply string_rev_app_append. Qed.

Lemma string_rev_append s t : String.rev (s +:+ t) = String.rev t +:+ String.rev s.
Proof.
  induction s as [|c s IH].
  - by rewrite string_append_nil_r.
  - by rewrite string_append_cons, !string_rev_cons, IH, string_append_assoc.
Qed.

Lemma string_rev_involutive s : String.rev (String.rev s) = s.
Proof.
  induction s as [|c s IH]; [done|].
  by rewrite string_rev_cons, string_rev_append, IH.
Qed.

Lemma insert_thousands_short s :
  (String.length s ≤ 3)%nat → PyStr.insert_thousands s = s.
Proof.
  intros Hlen. unfold PyStr.insert_thousands.
  assert (String.length (String.rev s) ≤ 3)%nat as Hrev.
  { clear -Hlen. revert Hlen. generalize 3%nat.
    induction s as [|c s IH]; intros n Hn; [simpl; lia|].
    rewrite string_rev_cons, string_append_length. simpl in *.
    specialize (IH (pred n) ltac:(lia)). lia. }
  assert (PyStr.group3_rev (String.rev s) = String.rev s) as ->.
  { destruct (String.rev s) as [|a [|b [|c [|d r]]]]; try done.
    simpl in Hrev. lia. }
  apply string_rev_involutive.
Qed.

Lemma insert_thousands_group s a b c :
  s ≠ "" →
  PyStr.insert_thousands (s +:+ String a (String b (String c "")))
  = PyStr.insert_thousands s +:+ String "," (String a (String b (String c ""))).
Proof.
  intros Hs. unfold PyStr.insert_thousands.
  rewrite string_rev_append.
  change (String.rev (String a (String b (String c ""))))
    with (String c (String b (String a ""))).
  rewrite !string_append_cons. change ("" +:+ String.rev s) with (String.rev s).
  destruct (String.rev s) as [|d r] eqn:Hrev.
  { destruct Hs. by rewrite <- (string_rev_involutive s), Hrev. }
  change (PyStr.group3_rev (String c (String b (String a (String d r)))))
    with (String c (String b (String a
            (String "," (PyStr.group3_rev (String d r)))))).
  rewrite !string_rev_cons, !string_append_assoc. done.
Qed.

Lemma replace_comma_cons c s :
  PyStr.replace "," "." (String c s)
  = (if decide (c = ","%char) then "." else String c "")
    +:+ PyStr.replace "," "." s.
Proof.
  unfold PyStr.replace. cbn [PyStr.replace_from String.prefix].
  destruct (ascii_dec "," c) as [<-|Hc].
  - rewrite decide_True by done. by destruct s.
  - rewrite decide_False by done. done.
Qed.

Lemma replace_comma_app s t :
  PyStr.replace "," "." (s +:+ t)
  = PyStr.replace "," "." s +:+ PyStr.replace "," "." t.
Proof.
  induction s as [|c s IH]; [done|].
  by rewrite string_append_cons, !replace_comma_cons, IH, string_append_assoc.
Qed.

Lemma replace_comma_free s : comma_free s → PyStr.replace "," "." s = s.
Proof.
  induction s as [|c s IH]; [done|]. intros [Hc Hs].
  rewrite replace_comma_cons, decide_False, IH by done. done.
Qed.

Lemma comma_free_app s t : comma_free s → comma_free t → comma_free (s +:+ t).
Proof.
  induction s as [|c s IH]; [done|]. intros [Hc Hs] Ht.
  rewrite string_append_cons. split; [done | by apply IH].
Qed.

Lemma pretty_N_char_comma x : pretty_N_char x ≠ ","%char.
Proof. unfold pretty_N_char. by repeat case_match. Qed.

Lemma comma_free_pretty (n : N) : comma_free (pretty n).
Proof.
  induction (N.lt_wf_0 n) as [n _ IH].
  destruct (decide (n < 10)%N) as [Hn|Hn].
  - rewrite pretty_N_digit by done. split; [apply pretty_N_char_comma|done].
  - rewrite pretty_N_snoc by lia. apply comma_free_app.
    + apply IH. apply N.div_lt; lia.
    + split; [apply pretty_N_char_comma|done].
Qed.

Lemma comma_free_three_digits m : comma_free (three_digits m).
Proof. unfold three_digits. repeat split; apply pretty_N_char_comma. Qed.

Lemma pretty_N_nonempty (n : N) : pretty n ≠ "".
Proof.
  destruct (decide (n < 10)%N) as [Hn|Hn].
  - by rewrite pretty_N_digit.
  - rewrite pretty_N_snoc by lia. by destruct (pretty (n `div` 10)%N).
Qed.

Lemma pretty_N_short (n : N) :
  (n < 1000)%N → (String.length (pretty n) ≤ 3)%nat.
Proof.
  intros Hn. destruct (decide (n < 10)%N) as [H1|H1].
  { rewrite pretty_N_digit by done. simpl. lia. }
  rewrite pretty_N_snoc, string_append_length by lia.
  destruct (decide (n `div` 10 < 10)%N) as [H2|H2].
  { rewrite pretty_N_digit by done. simpl. lia. }
  rewrite pretty_N_snoc, string_append_length by lia.
  rewrite pretty_N_digit
    by (zify; Z.to_euclidean_division_equations; lia).
  simpl. lia.
Qed.

(** The digits grouped by commas, with every comma turned into a dot, are
    the number written with a dot as thousands separator. *)
Lemma format_dot_grouped (n : N) :
  dot_grouped n (PyStr.replace "," "." (PyStr.insert_thousands (pretty n))).
Proof.
  induction (N.lt_wf_0 n) as [n _ IH].
  destruct (decide (n < 1000)%N) as [Hn|Hn].
  - rewrite insert_thousands_short by by apply pretty_N_short.
    rewrite replace_comma_free by apply comma_free_pretty.
    by constructor.
  - rewrite pretty_N_thousands by lia. unfold three_digits at 1.
    rewrite insert_thousands_group by apply pretty_N_nonempty.
    rewrite replace_comma_app.
    rewrite (replace_comma_cons ","), decide_True by done.
    rewrite (replace_comma_free (String _ _))
      by apply comma_free_three_digits.
    apply (dot_grouped_thousands n); [lia|].
    apply IH. apply N.div_lt; lia.
Qed.

Lemma colorbar_text_dot_of_fmap text :
  colorbar_text_dot_of text = PyStr.replace "," "." <$> text.
Proof.
  unfold colorbar_text_dot_of.
  enough (∀ acc, foldl (λ acc s, acc ++ [PyStr.replace "," "." s]) acc text
                 = acc ++ (PyStr.replace "," "." <$> text)) as H by apply H.
  induction text as [|s text IH]; intros acc; simpl.
  - by rewrite app_nil_r.
  - rewrite IH. by rewrite <- app_assoc.
Qed.

Lemma format_dot_separated (n : Z) :
  dot_separated n (PyStr.replace "," "." (PyStr.format_comma_d n)).
Proof.
  unfold dot_separated, PyStr.format_comma_d. destruct n as [|p|p].
  - rewrite decide_False by lia. apply format_dot_grouped.
  - rewrite decide_False by lia. apply format_dot_grouped.
  - rewrite decide_True by lia. eexists. split; [|apply format_dot_grouped].
    by rewrite string_append_cons, replace_comma_cons, decide_False.
Qed.

(** C8: the text of every tick is the tick value written with a dot as
    thousands separator, tick by tick in the order of the values; the tick
    240000 is rendered as "240.000". *)
Theorem colorbar_text_dot_separated (values : list Z) (i : nat) (n : Z) :
  values !! i = Some n →
  length (colorbar_text_dot_of (colorbar_text_of values)) = length values
  ∧ (∃ s, colorbar_text_dot_of (colorbar_text_of values) !! i = Some s
       ∧ dot_separated n s)
  ∧ colorbar_text_dot_of (colorbar_text_of [240000]) = ["240.000"].
Proof.
  intros Hn. rewrite colorbar_text_dot_of_fmap. unfold colorbar_text_of.
  split_and!.
  - by rewrite !length_fmap.
  - exists (PyStr.replace "," "." (PyStr.format_comma_d n)). split.
    + by rewrite !list_lookup_fmap, Hn.
    + apply format_dot_separated.
  - vm_compute. reflexivity.
Qed.

Lemma colorbar_text_dot_separated_witness :
  length (colorbar_text_dot_of (colorbar_text_of [200000; 240000; 280000]))
  = 3%nat
  ∧ (∃ s, colorbar_text_dot_of (colorbar_text_of [200000; 240000; 280000])
            !! 1%nat = Some s
       ∧ dot_separated 240000 s)
  ∧ colorbar_text_dot_of (colorbar_text_of [240000]) = ["240.000"].
Proof.
  exact (colorbar_text_dot_separated [200000; 240000; 280000] 1 240000 eq_refl).
Defined.

(** ** Reading a decimal literal back *)

Lemma pretty_N_char_cases (P : ascii → Prop) :
  P "0"%char → P "1"%char → P "2"%char → P "3"%char → P "4"%char →
  P "5"%char → P "6"%char → P "7"%char → P "8"%char → P "9"%char →
  ∀ x, P (pretty_N_char x).
Proof. intros. unfold pretty_N_char. by repeat case_match. Qed.

Lemma pretty_N_char_is_nat d :
  (d < 10)%N → Ascii.is_nat (pretty_N_char d) = Some (N.to_nat d).
Proof.
  intros Hd.
  assert (d = 0 ∨ d = 1 ∨ d = 2 ∨ d = 3 ∨ d = 4 ∨ d = 5 ∨ d = 6 ∨ d = 7
          ∨ d = 8 ∨ d = 9)%N as Hcases by lia.
  by repeat destruct Hcases as [->|Hcases]; [..|subst].
Qed.

Lemma digits_value_digit acc b d s :
  (d < 10)%N →
  PyStr.digits_value acc b (String (pretty_N_char d) s)
  = PyStr.digits_value (10 * acc + d)%N true s.
Proof.
  intros Hd. cbn [PyStr.digits_value].
  rewrite bool_decide_eq_false_2
    by (apply (pretty_N_char_cases (λ c, c ≠ "_"%char)); done).
  rewrite pretty_N_char_is_nat by done. by rewrite N2Nat.id.
Qed.

Lemma digits_value_snoc acc b s v d :
  (d < 10)%N →
  PyStr.digits_value acc b s = Some v →
  PyStr.digits_value acc b (s +:+ String (pretty_N_char d) "")
  = Some (10 * v + d)%N.
Proof.
  intros Hd. revert acc b. induction s as [|c s IH]; intros acc b Hs.
  - change ("" +:+ ?t) with t. rewrite digits_value_digit by done.
    destruct b; [|done]. simpl in Hs. by injection Hs as <-.
  - rewrite string_append_cons. cbn [PyStr.digits_value] in Hs |- *.
    case_bool_decide.
    + destruct b; [|done]. by apply IH.
    + destruct (Ascii.is_nat c); [|done]. by apply IH.
Qed.

Lemma digits_value_pretty (n : N) :
  PyStr.digits_value 0 false (pretty n) = Some n.
Proof.
  induction (N.lt_wf_0 n) as [n _ IH].
  destruct (decide (n < 10)%N) as [Hn|Hn].
  - rewrite pretty_N_digit, digits_value_digit by done. simpl. f_equal; lia.
  - rewrite pretty_N_snoc by lia.
    rewrite (digits_value_snoc _ _ _ (n `div` 10)%N).
    + f_equal. zify; Z.to_euclidean_division_equations; lia.
    + zify; Z.to_euclidean_division_equations; lia.
    + apply IH. apply N.div_lt; lia.
Qed.

Lemma pretty_N_head (n : N) :
  ∃ d rest, pretty n = String (pretty_N_char d) rest.
Proof.
  induction (N.lt_wf_0 n) as [n _ IH].
  destruct (decide (n < 10)%N) as [Hn|Hn].
  - rewrite pretty_N_digit by done. by eexists _, _.
  - rewrite pretty_N_snoc by lia.
    destruct (IH (n `div` 10)%N) as (d & rest & ->).
    { apply N.div_lt; lia. }
    rewrite string_append_cons. by eexists _, _.
Qed.

Lemma pretty_N_last (n : N) :
  ∃ s, pretty n = s +:+ String (pretty_N_char (n `mod` 10)) "".
Proof.
  destruct (decide (n < 10)%N) as [Hn|Hn].
  - exists "". rewrite pretty_N_digit, N.mod_small by done. done.
  - rewrite pretty_N_snoc by lia. by eexists.
Qed.

Lemma strip_id c s c' s' :
  PyStr.isspace c = false → PyStr.isspace c' = false →
  String.rev (String c s) = String c' s' →
  PyStr.strip (String c s) = String c s.
Proof.
  intros Hc Hc' Hrev. unfold PyStr.strip.
  cbn [PyStr.lstrip]. rewrite Hc, Hrev. cbn [PyStr.lstrip]. rewrite Hc'.
  by rewrite <- Hrev, string_rev_involutive.
Qed.

Lemma isspace_digit x : PyStr.isspace (pretty_N_char x) = false.
Proof.
  apply (pretty_N_char_cases (λ c, PyStr.isspace c = false)); by vm_compute.
Qed.

Lemma int_unsigned c s :
  PyStr.strip (String c s) = String c s →
  c ≠ "-"%char → c ≠ "+"%char →
  PyStr.int (String c s)
  = match PyStr.digits_value 0 false (String c s) with
    | Some n => Ok (Z.of_N n)
    | None => Err (ValueError (String c s))
    end.
Proof.
  intros Hstrip Hminus Hplus. unfold PyStr.int. rewrite Hstrip.
  destruct c as [[] [] [] [] [] [] [] []]; try done;
    by destruct (PyStr.digits_value 0 false _).
Qed.

Lemma int_negative s :
  PyStr.strip (String "-" s) = String "-" s →
  PyStr.int (String "-" s)
  = match PyStr.digits_value 0 false s with
    | Some n => Ok (- Z.of_N n)
    | None => Err (ValueError (String "-" s))
    end.
Proof.
  intros Hstrip. unfold PyStr.int. rewrite Hstrip.
  by destruct (PyStr.digits_value 0 false s).
Qed.

Lemma int_pretty_N (n : N) : PyStr.int (pretty n) = Ok (Z.of_N n).
Proof.
  destruct (pretty_N_head n) as (d & rest & Hhead).
  destruct (pretty_N_last n) as (s & Hlast).
  rewrite Hhead, int_unsigned.
  - by rewrite <- Hhead, digits_value_pretty.
  - apply (strip_id _ _ (pretty_N_char (n `mod` 10)) (String.rev s));
      [apply isspace_digit..|].
    by rewrite <- Hhead, Hlast, string_rev_append.
  - apply (pretty_N_char_cases (λ c, c ≠ "-"%char)); done.
  - apply (pretty_N_char_cases (λ c, c ≠ "+"%char)); done.
Qed.

Lemma int_pretty_Z (n : Z) : PyStr.int (pretty n) = Ok n.
Proof.
  destruct n as [|p|p].
  - by vm_compute.
  - apply (int_pretty_N (Npos p)).
  - change (pretty (Z.neg p)) with ("-" +:+ pretty (N.pos p)).
    destruct (pretty_N_last (N.pos p)) as (s & Hlast).
    rewrite string_append_cons. change ("" +:+ ?t) with t.
    rewrite int_negative.
    + by rewrite digits_value_pretty.
    + apply (strip_id _ _ (pretty_N_char (N.pos p `mod` 10))
               (String.rev (String "-" s)));
        [by vm_compute|apply isspace_digit|].
      by rewrite Hlast, <- string_append_cons, string_rev_append.
Qed.

(** X9: [int] reads back what [str] writes: [int(str(n))] is [n] for every
    integer [n], negative ones included. *)
Theorem int_str_round_trip (n : Z) : PyStr.int (PyStr.str n) = Ok n.
Proof. unfold PyStr.str. apply int_pretty_Z. Qed.

(** ** Reshaping from wide to long *)

Lemma clean_districts_length col :
  length (clean_districts col) = length col.
Proof.
  unfold clean_districts, Pandas.replace, Pandas.str_slice_from.
  by rewrite !length_fmap.
Qed.

Lemma rectangular_clean csv : rectangular csv → rectangular (clean csv).
Proof.
  unfold rectangular; simpl. by rewrite clean_districts_length.
Qed.

Lemma melt_column_length ids col :
  length col.2 = length ids → length (Pandas.melt_column ids col) = length ids.
Proof.
  intros Hlen. unfold Pandas.melt_column.
  rewrite length_fmap, length_zip. lia.
Qed.

Lemma melt_columns_same_length df :
  rectangular df →
  Forall (λ l, length l = length (wide_district df))
    (Pandas.melt_column (wide_district df) <$> wide_columns df).
Proof.
  intros Hrect. apply Forall_fmap. eapply Forall_impl; [exact Hrect|].
  intros col Hcol. by apply melt_column_length.
Qed.

Lemma melt_length df :
  rectangular df →
  length (Pandas.melt df)
  = (length (wide_district df) * length (wide_columns df))%nat.
Proof.
  intros Hrect. unfold Pandas.melt.
  rewrite length_join.
  rewrite (sum_list_fmap_same (length (wide_district df)))
    by by apply melt_columns_same_length.
  rewrite length_fmap. lia.
Qed.

Lemma melt_lookup df i j d label cells v :
  rectangular df →
  wide_district df !! i = Some d →
  wide_columns df !! j = Some (label, cells) →
  cells !! i = Some v →
  Pandas.melt df !! (j * length (wide_district df) + i)%nat
  = Some {| district := d; year := label; avg_income := v; id := () |}.
Proof.
  intros Hrect Hd Hcol Hv. unfold Pandas.melt.
  apply (join_lookup_Some_same_length' (length (wide_district df)));
    [by apply melt_columns_same_length | by eapply lookup_lt_Some |].
  exists (Pandas.melt_column (wide_district df) (label, cells)). split.
  - by rewrite list_lookup_fmap, Hcol.
  - unfold Pandas.melt_column; simpl. rewrite list_lookup_fmap.
    assert (zip (wide_district df) cells !! i = Some (d, v)) as ->; [|done].
    by apply lookup_zip_Some.
Qed.

Lemma elem_of_melt_year df r :
  r ∈ Pandas.melt df → ∃ col, col ∈ wide_columns df ∧ year r = col.1.
Proof.
  unfold Pandas.melt. rewrite list_elem_of_join.
  intros (l & Hr & Hl). apply list_elem_of_fmap in Hl as (col & -> & Hcol).
  exists col. split; [done|].
  unfold Pandas.melt_column in Hr.
  apply list_elem_of_fmap in Hr as (dv & -> & _). done.
Qed.

Lemma to_int64_Ok label y :
  Pandas.to_int64 label = Ok y ↔ PyStr.int label = Ok y ∧ int64 y.
Proof.
  unfold Pandas.to_int64. destruct (PyStr.int label) as [y'|e]; simpl.
  - case_bool_decide as Hfit.
    + split; [by intros [= <-] | by intros [[= <-] _]].
    + split; [done|]. by intros [[= <-] ?].
  - split; [done | by intros [? _]].
Qed.

Lemma to_int64_castable label : castable label → is_Ok (Pandas.to_int64 label).
Proof. intros (y & Hy & Hfit). exists y. by apply to_int64_Ok. Qed.

Lemma astype_int_Ok rows long :
  Pandas.astype_int rows = Ok long ↔ Forall2 cast_of rows long.
Proof.
  unfold Pandas.astype_int. rewrite traverse_Ok.
  split; intros H; (eapply Forall2_impl; [exact H|]); intros r r';
    unfold cast_of.
  - destruct (Pandas.to_int64 (year r)) as [y|e] eqn:Hy; [|done].
    apply to_int64_Ok in Hy as [Hy Hfit]. by intros [= <-].
  - intros (Hy & Hfit & Hd & Hv).
    rewrite (proj2 (to_int64_Ok _ _) (conj Hy Hfit)).
    destruct r' as [d' y' v' []]; simpl in *. by subst.
Qed.

Lemma astype_int_castable rows :
  Forall (λ r, castable (year r)) rows → is_Ok (Pandas.astype_int rows).
Proof.
  intros Hrows. unfold Pandas.astype_int. apply traverse_all_Ok.
  eapply Forall_impl; [exact Hrows|]. intros r Hr.
  destruct (to_int64_castable _ Hr) as [y ->]. by eexists.
Qed.
(** ** The id column *)

Lemma lookup_id_Ok m r r' : lookup_id m r = Ok r' ↔ with_id_of m r r'.
Proof.
  unfold lookup_id, with_id_of. destruct (m !! district r) as [i|].
  - split.
    + by intros [= <-].
    + intros ([= ->] & Hd & Hy & Hv). destruct r' as [d' y' v' i'].
      simpl in *. by subst.
  - split; [done | by intros [? _]].
Qed.

Lemma attach_ids_Ok m rows long :
  attach_ids m rows = Ok long ↔ Forall2 (with_id_of m) rows long.
Proof.
  unfold attach_ids. rewrite traverse_Ok.
  split; intros H; (eapply Forall2_impl; [exact H|]); intros r r';
    apply lookup_id_Ok.
Qed.

Lemma lookup_id_is_Ok m r : is_Ok (lookup_id m r) ↔ is_Some (m !! district r).
Proof.
  unfold lookup_id, is_Ok. destruct (m !! district r) as [i|].
  - split; [by eexists | by eexists].
  - split; [by intros [? ?] | by intros [? ?]].
Qed.

(** A name is in the lookup exactly when a feature carries it, and the id
    is that of the last such feature. *)
Lemma build_id_map_Some features name i :
  build_id_map features !! name = Some i →
  ∃ feature, feature ∈ features ∧ navn feature = name ∧ feature_id feature = i.
Proof.
  unfold build_id_map.
  induction features as [|feature features IH] using rev_ind; simpl.
  - by rewrite lookup_empty.
  - rewrite foldl_app; simpl. rewrite lookup_insert.
    case_decide as Hname.
    + intros [= <-]. exists feature. split; [|done].
      apply elem_of_app; right. by apply list_elem_of_singleton.
    + intros Hi. destruct (IH Hi) as (feature' & Hin & Hn & Hf).
      exists feature'. split; [|done]. apply elem_of_app; by left.
Qed.

Lemma build_id_map_is_Some features name :
  is_Some (build_id_map features !! name) ↔ name ∈ navn <$> features.
Proof.
  unfold build_id_map.
  induction features as [|feature features IH] using rev_ind; simpl.
  - rewrite lookup_empty. split; [by intros [? ?] | by inversion 1].
  - rewrite foldl_app, fmap_app, elem_of_app; simpl.
    rewrite lookup_insert. case_decide as Hname.
    + split; [|by eexists]. intros _. right. rewrite Hname. by left.
    + rewrite IH. split; [by left|]. intros [?|Hin]; [done|].
      apply list_elem_of_singleton in Hin. congruence.
Qed.

(** ** What a successful startup leaves in the state *)

Lemma wrap64_id z : int64 z → wrap64 z = z.
Proof.
  unfold int64, wrap64. intros Hz.
  rewrite Z.mod_small by lia. lia.
Qed.

Lemma startup_Ok_inv features csv st :
  startup features csv = Ok st →
  ∃ rows,
    Pandas.astype_int (Pandas.melt (clean csv)) = Ok rows
    ∧ attach_ids (build_id_map features) rows = Ok (df_income_long st)
    ∧ districts_cph st = features
    ∧ districts_id_map st = build_id_map features
    ∧ max_value_colorbar_of (avg_income <$> df_income_long st)
      = PyInt (max_value_colorbar st)
    ∧ min_value_colorbar_of (avg_income <$> df_income_long st)
      = PyInt (min_value_colorbar st)
    ∧ colorbar_values st
      = range_items (min_value_colorbar st) (max_value_colorbar st) 40000
    ∧ colorbar_text_dot st
      = colorbar_text_dot_of (colorbar_text_of (colorbar_values st))
    ∧ Forall int64 (avg_income <$> df_income_long st).
Proof.
  unfold startup. intros Hst.
  destruct (Pandas.astype_int _) as [rows|e] eqn:Hrows; [|done].
  simpl in Hst.
  destruct (attach_ids _ rows) as [long|e] eqn:Hlong; [|done].
  simpl in Hst. unfold int64_column in Hst.
  case_bool_decide as Hfit; [|done]. simpl in Hst. unfold range in Hst.
  destruct (min_value_colorbar_of _) as [lo|] eqn:Hlo; [|done].
  destruct (max_value_colorbar_of _) as [hi|] eqn:Hhi; [|done].
  simpl in Hst. injection Hst as <-. simpl.
  exists rows. by split_and!.
Qed.


(** C3: for a rectangular table whose year labels are integer literals
    within the 64-bit range, the long table has (number of district rows) x
    (number of year columns) rows: the row of district [i] and year column
    [j] is at position [j * rows + i] and holds the cleaned district name,
    the integer that [int] reads from the label and the income cell; a label
    that is the decimal notation of [y] gives the year [y]; the table that
    startup keeps has these rows, in this order, with the [id] column
    added. *)
Theorem melt_long_table (csv : WideFrame) :
  rectangular csv →
  Forall (λ col, castable col.1) (wide_columns csv) →
  ∃ long,
    Pandas.astype_int (Pandas.melt (clean csv)) = Ok long
    ∧ length long
      = (length (wide_district csv) * length (wide_columns csv))%nat
    ∧ (∀ i j d label column v,
         wide_district (clean csv) !! i = Some d →
         wide_columns csv !! j = Some (label, column) →
         column !! i = Some v →
         ∃ y, PyStr.int label = Ok y
           ∧ long !! (j * length (wide_district csv) + i)%nat
             = Some {| district := d; year := y; avg_income := v; id := () |})
    ∧ (∀ i j d y column v,
         wide_district (clean csv) !! i = Some d →
         wide_columns csv !! j = Some (PyStr.str y, column) →
         column !! i = Some v →
         long !! (j * length (wide_district csv) + i)%nat
         = Some {| district := d; year := y; avg_income := v; id := () |})
    ∧ (∀ features st,
         startup features csv = Ok st →
         cells <$> df_income_long st = cells <$> long).
Proof.
  intros Hrect Hlabels.
  pose proof (clean_districts_length (wide_district csv)) as Hlen.
  pose proof (rectangular_clean _ Hrect) as Hrect'.
  destruct (astype_int_castable (Pandas.melt (clean csv))) as [long Hlong].
  { apply Forall_forall. intros r Hr.
    apply elem_of_melt_year in Hr as (col & Hcol & ->).
    rewrite Forall_forall in Hlabels. by apply Hlabels. }
  exists long. pose proof Hlong as Hcast. apply astype_int_Ok in Hcast.
  assert (∀ i j d label column v,
    wide_district (clean csv) !! i = Some d →
    wide_columns csv !! j = Some (label, column) →
    column !! i = Some v →
    ∃ y, PyStr.int label = Ok y
      ∧ long !! (j * length (wide_district csv) + i)%nat
        = Some {| district := d; year := y; avg_income := v; id := () |})
    as Hrows.
  { intros i j d label column v Hd Hcol Hv.
    pose proof (melt_lookup (clean csv) i j d label column v Hrect' Hd Hcol Hv)
      as Hrow.
    change (wide_district (clean csv))
      with (clean_districts (wide_district csv)) in Hrow.
    rewrite Hlen in Hrow.
    destruct (Forall2_lookup_l _ _ _ _ _ Hcast Hrow)
      as ([d' y' v' []] & Hrow' & Hy & _ & Hd' & Hv').
    simpl in *. subst. by exists y'. }
  split_and!.
  - done.
  - rewrite <- (Forall2_length _ _ _ Hcast), melt_length by done.
    simpl. by rewrite Hlen.
  - exact Hrows.
  - intros i j d y column v Hd Hcol Hv.
    destruct (Hrows i j d _ column v Hd Hcol Hv) as (y' & Hy' & Hrow).
    unfold PyStr.str in Hy'. rewrite int_pretty_Z in Hy'.
    by injection Hy' as <-.
  - intros features st Hst.
    destruct (startup_Ok_inv _ _ _ Hst) as (rows & Hrows' & Hids & _).
    rewrite Hlong in Hrows'. injection Hrows' as <-.
    apply attach_ids_Ok in Hids. clear -Hids.
    induction Hids as [|r r' l l' (_ & Hd & Hy & Hv) _ IH]; [done|].
    csimpl. rewrite IH. f_equal. unfold cells. by rewrite Hd, Hy, Hv.
Qed.

Lemma melt_long_table_witness :
  ∃ long,
    Pandas.astype_int (Pandas.melt (clean sample_csv)) = Ok long
    ∧ length long = (2 * 2)%nat
    ∧ (∀ i j d label column v,
         wide_district (clean sample_csv) !! i = Some d →
         wide_columns sample_csv !! j = Some (label, column) →
         column !! i = Some v →
         ∃ y, PyStr.int label = Ok y
           ∧ long !! (j * 2 + i)%nat
             = Some {| district := d; year := y; avg_income := v; id := () |})
    ∧ (∀ i j d y column v,
         wide_district (clean sample_csv) !! i = Some d →
         wide_columns sample_csv !! j = Some (PyStr.str y, column) →
         column !! i = Some v →
         long !! (j * 2 + i)%nat
         = Some {| district := d; year := y; avg_income := v; id := () |})
    ∧ (∀ features st,
         startup features sample_csv = Ok st →
         cells <$> df_income_long st = cells <$> long).
Proof.
  apply (melt_long_table sample_csv).
  - unfold rectangular. repeat constructor.
  - repeat constructor; eexists; (split; [reflexivity | by vm_compute]).
Defined.
(** C4: let [rows] be the long table before the [id] column, built from the
    cleaned district names.  If the district of a row is not a key of
    [districts_id_map], the id step raises [KeyError] for such a name and
    startup ends with that exception, without a state to serve from; if the
    district of every row is a key, the id step returns the rows with, in
    the [id] column, the entry of their district. *)
Theorem attach_ids_unguarded (features : list Feature) (csv : WideFrame)
    (rows : list (Row Z ())) :
  Pandas.astype_int (Pandas.melt (clean csv)) = Ok rows →
  (Exists (λ r, build_id_map features !! district r = None) rows →
   ∃ name,
     name ∈ district <$> rows
     ∧ build_id_map features !! name = None
     ∧ attach_ids (build_id_map features) rows = Err (KeyError name)
     ∧ startup features csv = Err (KeyError name))
  ∧ (Forall (λ r, is_Some (build_id_map features !! district r)) rows →
     ∃ long,
       attach_ids (build_id_map features) rows = Ok long
       ∧ Forall2 (with_id_of (build_id_map features)) rows long).
Proof.
  intros Hrows. split.
  - intros Hmiss.
    destruct (traverse_some_Err (lookup_id (build_id_map features)) rows)
      as (l1 & r & l2 & e & -> & _ & Hr & Hfail).
    { eapply Exists_impl; [exact Hmiss|]. intros r Hr [r' Hr'].
      unfold lookup_id in Hr'. by rewrite Hr in Hr'. }
    unfold lookup_id in Hr.
    destruct (build_id_map features !! district r) as [i|] eqn:Hkey; [done|].
    injection Hr as <-. exists (district r). split_and!.
    + rewrite fmap_app, elem_of_app. right. by left.
    + done.
    + done.
    + unfold startup. rewrite Hrows; simpl.
      unfold attach_ids. by rewrite Hfail.
  - intros Hall.
    destruct (traverse_all_Ok (lookup_id (build_id_map features)) rows)
      as [long Hlong].
    { eapply Forall_impl; [exact Hall|]. intros r. by apply lookup_id_is_Ok. }
    exists long. split; [done|]. by apply attach_ids_Ok.
Qed.

Lemma attach_ids_unguarded_witness :
  (∃ name, startup sample_features sample_csv_unknown = Err (KeyError name))
  ∧ (∃ long,
       Pandas.astype_int (Pandas.melt (clean sample_csv))
         ≫= attach_ids (build_id_map sample_features) = Ok long
       ∧ id <$> long = [IdInt 1; IdInt 5; IdInt 1; IdInt 5]).
Proof.
  split.
  - destruct (attach_ids_unguarded sample_features sample_csv_unknown _ eq_refl)
      as [Hmiss _].
    destruct Hmiss as (name & _ & _ & _ & Hstart).
    + apply Exists_cons_tl, Exists_cons_hd. reflexivity.
    + by exists name.
  - destruct (attach_ids_unguarded sample_features sample_csv _ eq_refl)
      as [_ Hall].
    destruct Hall as (long & Hlong & Hids).
    + repeat constructor; by eexists.
    + exists long. split; [exact Hlong|].
      vm_compute in Hlong. by injection Hlong as <-.
Defined.

(** ** The redraw handler *)

Lemma update_figure_unfold selected_year st :
  update_figure selected_year st
  = (update_traces
       (update_layout
          (choropleth_mapbox (filter_year selected_year (df_income_long st))
             (districts_cph st) (min_value_colorbar st, max_value_colorbar st))
          (colorbar_values st) (colorbar_text_dot st))
       hover_template, st).
Proof. reflexivity. Qed.

Lemma filter_year_nil selected_year (df : list (Row Z FeatureId)) :
  selected_year ∉ year <$> df → filter_year selected_year df = [].
Proof.
  intros Hnot. unfold filter_year. induction df as [|r df IH]; [done|].
  rewrite fmap_cons, not_elem_of_cons in Hnot. destruct Hnot as [Hr Hdf].
  rewrite filter_cons_False by (simpl; congruence). by apply IH.
Qed.

(** C5: for a year that no row of the long table has, the handler raises
    nothing and validates nothing: the filtered frame is empty, and the
    figure it returns, with the state as it was, has no location, no colour
    value and no custom data, so no district is coloured. *)
Theorem update_figure_unknown_year (st : AppState) (selected_year : Z) :
  selected_year ∉ year <$> df_income_long st →
  filter_year selected_year (df_income_long st) = []
  ∧ ∃ fig,
      update_figure selected_year st = (fig, st)
      ∧ locations (trace fig) = []
      ∧ z (trace fig) = []
      ∧ customdata (trace fig) = [].
Proof.
  intros Hnot. pose proof (filter_year_nil _ _ Hnot) as Hnil.
  split; [done|]. eexists. rewrite update_figure_unfold. split; [done|].
  simpl. by rewrite Hnil.
Qed.

Lemma update_figure_unknown_year_witness :
  filter_year 2020 (df_income_long sample_state) = []
  ∧ ∃ fig,
      update_figure 2020 sample_state = (fig, sample_state)
      ∧ locations (trace fig) = []
      ∧ z (trace fig) = []
      ∧ customdata (trace fig) = [].
Proof.
  apply (update_figure_unknown_year sample_state 2020).
  vm_compute. intros Hin.
  repeat (apply elem_of_cons in Hin as [Hin|Hin]; [discriminate Hin|]).
  by apply elem_of_nil in Hin.
Defined.

(** *** The handler and the objects of the process *)

Lemma get_old (h later : Heap) (l : nat) (o : Obj) :
  h !! l = Some o → get l (h ++ later) = Some (o, h ++ later).
Proof. intros Hl. unfold get. by rewrite (lookup_app_l_Some _ _ _ _ Hl). Qed.

Lemma get_last (h : Heap) (o : Obj) :
  get (length h) (h ++ [o]) = Some (o, h ++ [o]).
Proof.
  unfold get. by rewrite (list_lookup_middle h [] o (length h) eq_refl).
Qed.

Lemma set_last (h : Heap) (o o' : Obj) :
  set (length h) o' (h ++ [o]) = Some ((), h ++ [o']).
Proof.
  unfold set. rewrite decide_True by (rewrite length_app; simpl; lia).
  rewrite insert_app_r_alt, Nat.sub_diag by done. done.
Qed.

(** One run of the handler on a heap where the names are bound to objects
    of the right kinds: a frame and a figure are added. *)
Lemma update_figure_run_on (names : Names) (h : Heap) (selected_year : Z)
    df geo lo hi vals text :
  h !! name_df_income_long names = Some (ObjFrame df) →
  h !! name_districts_cph names = Some (ObjGeo geo) →
  h !! name_min_value_colorbar names = Some (ObjInt lo) →
  h !! name_max_value_colorbar names = Some (ObjInt hi) →
  h !! name_colorbar_values names = Some (ObjInts vals) →
  h !! name_colorbar_text_dot names = Some (ObjStrs text) →
  update_figure_run names selected_year h
  = Some (S (length h),
          h ++ [ ObjFrame (filter_year selected_year df);
                 ObjFigure
                   (update_traces
                      (update_layout
                         (choropleth_mapbox (filter_year selected_year df)
                            geo (lo, hi))
                         vals text)
                      hover_template) ]).
Proof.
  intros Hdf Hgeo Hlo Hhi Hvals Htext.
  unfold update_figure_run, get_frame, get_geo, get_int, get_ints, get_strs,
    get_figure.
  cbv [mbind Run_bind mret Run_ret new].
  rewrite <- (app_nil_r h) at 1. rewrite (get_old h [] _ _ Hdf), app_nil_r.
  cbv beta iota. rewrite get_last. cbv beta iota.
  rewrite (get_old h [_] _ _ Hgeo). cbv beta iota.
  rewrite (get_old h [_] _ _ Hlo). cbv beta iota.
  rewrite (get_old h [_] _ _ Hhi). cbv beta iota.
  rewrite <- !app_assoc.
  rewrite (get_old h _ _ _ Hvals). cbv beta iota.
  rewrite (get_old h _ _ _ Htext). cbv beta iota.
  rewrite !app_assoc, get_last. cbv beta iota.
  rewrite set_last. cbv beta iota.
  rewrite get_last. cbv beta iota.
  rewrite set_last. cbv beta iota.
  rewrite length_app, Nat.add_1_r, <- app_assoc. done.
Qed.

Lemma update_figure_run_adds st later selected_year :
  update_figure_run module_names selected_year (module_objects st ++ later)
  = Some (S (length (module_objects st ++ later)),
          (module_objects st ++ later)
          ++ [ ObjFrame (filter_year selected_year (df_income_long st));
               ObjFigure (update_figure selected_year st).1 ]).
Proof. by apply update_figure_run_on. Qed.

(** C6: a run of the handler changes no object that existed before it,
    neither those that the module-level names are bound to (the geo data,
    the id lookup, the long table, the colour range, the tick values and
    labels) nor any created since; the figure it returns is a new object,
    the only one it writes to, and holds the figure computed from the
    selected year and the module-level state; a second run with the same
    year returns another new object that holds an equal figure. *)
Theorem update_figure_pure (st : AppState) (later : Heap)
    (selected_year : Z) :
  ∃ fig h1,
    update_figure_run module_names selected_year (module_objects st ++ later)
    = Some (fig, h1)
    ∧ (∀ l o, (module_objects st ++ later) !! l = Some o → h1 !! l = Some o)
    ∧ (module_objects st ++ later) !! fig = None
    ∧ h1 !! fig = Some (ObjFigure (update_figure selected_year st).1)
    ∧ ∃ fig' h2,
        update_figure_run module_names selected_year h1 = Some (fig', h2)
        ∧ fig' ≠ fig
        ∧ h2 !! fig' = h1 !! fig
        ∧ ∀ l o, h1 !! l = Some o → h2 !! l = Some o.
Proof.
  set (h := module_objects st ++ later).
  set (added := [ ObjFrame (filter_year selected_year (df_income_long st));
                  ObjFigure (update_figure selected_year st).1 ]).
  assert (∀ k : Heap, (k ++ added) !! S (length k)
            = Some (ObjFigure (update_figure selected_year st).1)) as Hfig.
  { intros k. rewrite lookup_app_r by lia.
    by replace (S (length k) - length k)%nat with 1%nat by lia. }
  exists (S (length h)), (h ++ added). split_and!.
  - apply update_figure_run_adds.
  - intros l o Hl. by apply lookup_app_l_Some.
  - apply lookup_ge_None. lia.
  - apply Hfig.
  - exists (S (length (h ++ added))), ((h ++ added) ++ added). split_and!.
    + unfold h. rewrite <- app_assoc. apply update_figure_run_adds.
    + rewrite length_app. simpl. lia.
    + by rewrite !Hfig.
    + intros l o Hl. by apply lookup_app_l_Some.
Qed.

Example update_figure_run_sample :
  update_figure_run module_names 2019 (module_objects sample_state)
  = Some (8%nat,
          module_objects sample_state
          ++ [ ObjFrame (filter_year 2019 sample_long);
               ObjFigure (update_figure 2019 sample_state).1 ]).
Proof. vm_compute. reflexivity. Qed.
(** ** Aggregates, rounding and [range] *)

Lemma foldl_max_spec x col : maximum_of (x :: col) (foldl Z.max x col).
Proof.
  revert x. induction col as [|y col IH]; intros x; simpl.
  - split; [by left|]. intros ? ->%list_elem_of_singleton. lia.
  - destruct (IH (x `max` y)) as [Hin Hub]. split.
    + apply elem_of_cons in Hin as [->|Hin].
      * destruct (Z.max_spec x y) as [[_ ->]|[_ ->]];
          [right; left | left].
      * by do 2 right.
    + intros w Hw. apply elem_of_cons in Hw as [->|Hw].
      * specialize (Hub (x `max` y)). etrans; [|apply Hub; by left]. lia.
      * apply elem_of_cons in Hw as [->|Hw].
        -- specialize (Hub (x `max` y)). etrans; [|apply Hub; by left]. lia.
        -- apply Hub. by right.
Qed.

Lemma foldl_min_spec x col : minimum_of (x :: col) (foldl Z.min x col).
Proof.
  revert x. induction col as [|y col IH]; intros x; simpl.
  - split; [by left|]. intros ? ->%list_elem_of_singleton. lia.
  - destruct (IH (x `min` y)) as [Hin Hlb]. split.
    + apply elem_of_cons in Hin as [->|Hin].
      * destruct (Z.min_spec x y) as [[_ ->]|[_ ->]];
          [left | right; left].
      * by do 2 right.
    + intros w Hw. apply elem_of_cons in Hw as [->|Hw].
      * specialize (Hlb (x `min` y)). etrans; [apply Hlb; by left|]. lia.
      * apply elem_of_cons in Hw as [->|Hw].
        -- specialize (Hlb (x `min` y)). etrans; [apply Hlb; by left|]. lia.
        -- apply Hlb. by right.
Qed.

Lemma pandas_max_Some col m : Pandas.max col = PyInt m → maximum_of col m.
Proof.
  destruct col as [|x col]; [done|]. intros [= <-]. apply foldl_max_spec.
Qed.

Lemma pandas_min_Some col m : Pandas.min col = PyInt m → minimum_of col m.
Proof.
  destruct col as [|x col]; [done|]. intros [= <-]. apply foldl_min_spec.
Qed.

(** *** Double precision

    [rint_div] is the nearest integer to a quotient, ties to even; the
    lemmas below show that [round(x, -4)] is exact for an [x] that double
    precision holds with room to spare. *)

Lemma rint_div_spec a b :
  0 < b →
  2 * Z.abs (a - Float64.rint_div a b * b) < b
  ∨ (2 * Z.abs (a - Float64.rint_div a b * b) = b
     ∧ Z.even (Float64.rint_div a b) = true).
Proof.
  intros Hb. unfold Float64.rint_div.
  pose proof (Z.div_mod a b ltac:(lia)) as Ha.
  pose proof (Z.mod_pos_bound a b Hb) as Hr.
  destruct (Z.ltb_spec (2 * (a `mod` b)) b); [left; nia|].
  destruct (Z.ltb_spec b (2 * (a `mod` b))); [left; nia|].
  right. destruct (Z.even (a `div` b)) eqn:Heven.
  - split; [nia|done].
  - split; [nia|]. by rewrite Z.even_add, Heven.
Qed.

Lemma rint_div_unique a b k :
  0 < b →
  2 * Z.abs (a - k * b) < b ∨ (2 * Z.abs (a - k * b) = b ∧ Z.even k = true) →
  Float64.rint_div a b = k.
Proof.
  intros Hb Hk. unfold Float64.rint_div.
  pose proof (Z.div_mod a b ltac:(lia)) as Ha.
  pose proof (Z.mod_pos_bound a b Hb) as Hr.
  set (q := a `div` b) in *. set (r := a `mod` b) in *.
  assert (k = q ∨ k = q + 1) as Hcases by nia.
  destruct (Z.ltb_spec (2 * r) b); [nia|].
  destruct (Z.ltb_spec b (2 * r)); [nia|].
  assert (2 * r = b) as Hrb by lia.
  destruct Hk as [Hk|[Hk Heven]]; [nia|].
  destruct Hcases as [->| ->].
  - by rewrite Heven.
  - rewrite Z.even_add in Heven. destruct (Z.even q); done.
Qed.

Lemma rint_div_scale a b c :
  0 < b → 0 < c → Float64.rint_div (a * c) (b * c) = Float64.rint_div a b.
Proof.
  intros Hb Hc. apply rint_div_unique; [nia|].
  destruct (rint_div_spec a b Hb) as [Hk|[Hk Heven]].
  - left. nia.
  - right. split; [nia|done].
Qed.

Lemma rint_div_1 z : Float64.rint_div z 1 = z.
Proof. apply rint_div_unique; [done|]. left. lia. Qed.

(** Rounding the quotient by 10,000 to a multiple of [1 / P] first, for an
    even [P] above 5,000, does not change the nearest integer. *)
Lemma rint_div_twice x P :
  5000 < P → Z.even P = true →
  Float64.rint_div (Float64.rint_div (x * P) 10000) P
  = Float64.rint_div x 10000.
Proof.
  intros HP Heven. apply rint_div_unique; [lia|].
  set (K := Float64.rint_div x 10000).
  set (M := Float64.rint_div (x * P) 10000).
  destruct (rint_div_spec x 10000 ltac:(done)) as [HK|[HK HKeven]];
    fold K in HK |- *.
  - left. destruct (rint_div_spec (x * P) 10000 ltac:(done)) as [HM|[HM _]];
      fold M in HM; nia.
  - right. split; [|done].
    apply Z.even_spec in Heven as [P' ->].
    assert (M = K * (2 * P') + P' ∨ M = K * (2 * P') - P') as [HM|HM]; [|lia..].
    assert (x = K * 10000 + 5000 ∨ x = K * 10000 - 5000) as [Hx|Hx] by lia.
    + left. apply rint_div_unique; [done|]. left. nia.
    + right. apply rint_div_unique; [done|]. left. nia.
Qed.

Lemma ilog2_upper n d L :
  0 < n → 0 < d → 0 ≤ L + 1 → n < 2 ^ (L + 1) * d → Float64.ilog2 n d ≤ L.
Proof.
  intros Hn Hd HL Hnd. unfold Float64.ilog2.
  pose proof (Z.log2_spec n Hn) as [_ Hn2].
  pose proof (Z.log2_spec d Hd) as [Hd1 Hd2].
  pose proof (Z.log2_nonneg n). pose proof (Z.log2_nonneg d).
  assert (Z.log2 n - Z.log2 d ≤ L + 1) as Hc.
  { assert (Z.log2 n < L + 1 + (Z.log2 d + 1)); [|lia].
    apply Z.log2_lt_pow2; [done|]. rewrite Z.pow_add_r by lia.
    pose proof (Z.pow_pos_nonneg 2 (L + 1) ltac:(done) HL).
    replace (Z.succ (Z.log2 d)) with (Z.log2 d + 1) in Hd2 by lia. nia. }
  destruct (Z.ltb_spec (n * 2 ^ Z.max 0 (- (Z.log2 n - Z.log2 d)))
              (d * 2 ^ Z.max 0 (Z.log2 n - Z.log2 d))) as [|Hge]; [lia|].
  destruct (decide (Z.log2 n - Z.log2 d ≤ L)) as [|Hgt]; [done|].
  assert (Z.log2 n - Z.log2 d = L + 1) as Heq by lia.
  rewrite Heq in Hge.
  rewrite (Z.max_l 0 (- (L + 1))), (Z.max_r 0 (L + 1)) in Hge by lia.
  simpl in Hge. lia.
Qed.

Lemma of_int_exact x :
  Z.abs x < 2 ^ 53 →
  ∃ s, 0 ≤ s ∧ Float64.of_int x = (x * 2 ^ s, - s).
Proof.
  intros Hx. unfold Float64.of_int, Float64.round_ratio.
  destruct (Z.eqb_spec x 0) as [->|Hx0]; [by exists 0|].
  pose proof (ilog2_upper (Z.abs x) 1 52 ltac:(lia) ltac:(done) ltac:(done)
                ltac:(lia)) as He.
  set (e := Float64.ilog2 (Z.abs x) 1 - 52) in *.
  exists (- e). split; [lia|].
  rewrite (Z.max_l 0 e), (Z.max_r 0 (- e)) by lia.
  rewrite Z.opp_involutive. change (1 * 2 ^ 0) with 1.
  by rewrite rint_div_1.
Qed.

Lemma rint_div_of_int x :
  Z.abs x ≤ 10 ^ 15 →
  Float64.rint (Float64.div (Float64.of_int x) 10000)
  = Float64.rint_div x 10000.
Proof.
  intros Hx. destruct (of_int_exact x ltac:(lia)) as (s & Hs & ->).
  pose proof (Z.pow_pos_nonneg 2 s ltac:(done) Hs) as Hpow.
  unfold Float64.div; cbn [fst snd].
  rewrite (Z.max_l 0 (- s)), (Z.max_r 0 (- - s)), Z.opp_involutive by lia.
  change (2 ^ 0) with 1. rewrite Z.mul_1_r.
  unfold Float64.round_ratio.
  destruct (Z.eqb_spec (x * 2 ^ s) 0) as [H0|H0].
  { assert (x = 0) as -> by nia. reflexivity. }
  assert (Float64.ilog2 (Z.abs (x * 2 ^ s)) (10000 * 2 ^ s) ≤ 36) as He.
  { apply ilog2_upper; [lia|lia|done|].
    rewrite Z.abs_mul, (Z.abs_eq (2 ^ s)) by lia. nia. }
  set (e := Float64.ilog2 _ _ - 52) in *.
  rewrite (Z.max_l 0 e), (Z.max_r 0 (- e)) by lia.
  change (2 ^ 0) with 1. rewrite Z.mul_1_r.
  rewrite <- Z.mul_assoc, (Z.mul_comm (2 ^ s)), Z.mul_assoc.
  rewrite rint_div_scale by lia.
  unfold Float64.rint; cbn [fst snd].
  destruct (Z.leb_spec 0 e) as [|_]; [lia|].
  apply rint_div_twice.
  - pose proof (Z.pow_le_mono_r 2 13 (- e) ltac:(done) ltac:(lia)) as Hle.
    change (2 ^ 13) with 8192 in Hle. lia.
  - replace (- e) with (Z.succ (- e - 1)) by lia.
    rewrite Z.pow_succ_r by lia. by rewrite Z.even_mul.
Qed.

Lemma to_int64_mul k f :
  Z.abs (k * f) < 2 ^ 53 → Float64.to_int64 (Float64.mul k f) = k * f.
Proof.
  intros Hkf. unfold Float64.mul.
  destruct (of_int_exact (k * f) Hkf) as (s & Hs & Hexact).
  unfold Float64.of_int in Hexact. rewrite Hexact.
  pose proof (Z.pow_pos_nonneg 2 s ltac:(done) Hs) as Hpow.
  unfold Float64.to_int64; cbn [fst snd].
  assert ((if 0 <=? - s then k * f * 2 ^ s * 2 ^ (- s)
           else (k * f * 2 ^ s) `quot` 2 ^ (- - s)) = k * f) as ->.
  { destruct (Z.leb_spec 0 (- s)).
    - assert (s = 0) as -> by lia. simpl. lia.
    - rewrite Z.opp_involutive. apply Z.quot_mul. lia. }
  destruct (Z.leb_spec (- 2 ^ 63) (k * f)); [|lia].
  destruct (Z.ltb_spec (k * f) (2 ^ 63)); [done|lia].
Qed.

Lemma round_int_neg4 x :
  moderate x → PyNum.round_int x (-4) = Float64.rint_div x 10000 * 10000.
Proof.
  unfold moderate. intros Hx. unfold PyNum.round_int.
  change (0 <=? -4) with false. change (10 ^ (- -4)) with 10000.
  cbv iota zeta.
  rewrite rint_div_of_int by done. apply to_int64_mul.
  destruct (rint_div_spec x 10000 ltac:(done)) as [HK|[HK _]]; lia.
Qed.

(** [round(x, -4)] is a multiple of 10,000 nearest to [x]. *)
Lemma round_int_nearest x :
  moderate x → nearest_multiple 10000 x (PyNum.round_int x (-4)).
Proof.
  intros Hx. rewrite round_int_neg4 by done. split; [by eexists|].
  intros r' [k ->].
  destruct (rint_div_spec x 10000 ltac:(done)) as [HK|[HK _]]; lia.
Qed.

(** On a tie the even multiple is taken, as [round] does. *)
Lemma round_int_tie x :
  moderate x → x `mod` 10000 = 5000 →
  Z.even (PyNum.round_int x (-4) `div` 10000) = true.
Proof.
  intros Hx Htie. rewrite round_int_neg4, Z.div_mul by done.
  unfold Float64.rint_div. rewrite Htie. simpl.
  destruct (Z.even (x `div` 10000)) eqn:Heven; [done|].
  by rewrite Z.even_add, Heven.
Qed.

Lemma round_int_within x :
  moderate x → x - 5000 ≤ PyNum.round_int x (-4) ≤ x + 5000.
Proof.
  intros Hx. rewrite round_int_neg4 by done.
  destruct (rint_div_spec x 10000 ltac:(done)) as [HK|[HK _]]; lia.
Qed.

Lemma round_int_multiple x : moderate x → (10000 | PyNum.round_int x (-4)).
Proof. intros Hx. rewrite round_int_neg4 by done. by eexists. Qed.

Lemma round_int_mono x y :
  moderate x → moderate y →
  x ≤ y → PyNum.round_int x (-4) ≤ PyNum.round_int y (-4).
Proof.
  intros Hmx Hmy Hxy. destruct (decide (x = y)) as [->|Hne]; [done|].
  pose proof (round_int_within x Hmx) as Hx.
  pose proof (round_int_within y Hmy) as Hy.
  destruct (round_int_multiple x Hmx) as [a Ha].
  destruct (round_int_multiple y Hmy) as [b Hb].
  lia.
Qed.

Lemma range_items_lookup lo hi step (i : nat) :
  range_items lo hi step !! i
  = if decide (Z.of_nat i < range_length lo hi step)
    then Some (lo + Z.of_nat i * step) else None.
Proof.
  unfold range_items. rewrite list_lookup_fmap.
  case_decide as Hi.
  - rewrite lookup_seq_lt by lia. done.
  - rewrite lookup_seq_ge by lia. done.
Qed.

Lemma range_items_length lo hi step :
  length (range_items lo hi step) = Z.to_nat (range_length lo hi step).
Proof. unfold range_items. by rewrite length_fmap, length_seq. Qed.

Lemma range_items_increasing lo hi step :
  0 < step → increasing (range_items lo hi step).
Proof.
  intros Hstep i j a b Hij. rewrite !range_items_lookup.
  repeat case_decide; intros [= <-] [= <-]. nia.
Qed.

Lemma range_items_evenly_spaced lo hi step :
  evenly_spaced step (range_items lo hi step).
Proof.
  intros i a b. rewrite !range_items_lookup.
  repeat case_decide; intros [= <-] [= <-]. lia.
Qed.

Lemma range_length_up lo hi step :
  0 < step → lo < hi → range_length lo hi step = 1 + (hi - 1 - lo) `div` step.
Proof.
  intros Hstep Hlt. unfold range_length.
  destruct (Z.ltb_spec 0 step); [|lia].
  destruct (Z.ltb_spec lo hi); [|lia]. done.
Qed.

Lemma range_items_head lo hi step :
  0 < step → lo < hi → head (range_items lo hi step) = Some lo.
Proof.
  intros Hstep Hlt. rewrite head_lookup, range_items_lookup.
  rewrite range_length_up by done.
  pose proof (Z.div_pos (hi - 1 - lo) step ltac:(lia) ltac:(lia)).
  change (Z.of_nat 0) with 0. rewrite Z.mul_0_l, Z.add_0_r.
  case_decide; [done | exfalso; lia].
Qed.

Lemma range_items_last lo hi step :
  0 < step → lo < hi →
  ∃ top, last (range_items lo hi step) = Some top ∧ hi - step ≤ top < hi.
Proof.
  intros Hstep Hlt.
  pose proof (Z.div_pos (hi - 1 - lo) step ltac:(lia) ltac:(lia)) as Hq.
  pose proof (Z.div_mod (hi - 1 - lo) step ltac:(lia)) as Hdm.
  pose proof (Z.mod_pos_bound (hi - 1 - lo) step Hstep) as Hr.
  exists (lo + (hi - 1 - lo) `div` step * step). split; [|lia].
  rewrite last_lookup, range_items_length, range_items_lookup.
  rewrite range_length_up by done.
  replace (pred (Z.to_nat (1 + (hi - 1 - lo) `div` step)))
    with (Z.to_nat ((hi - 1 - lo) `div` step)) by lia.
  rewrite Z2Nat.id by done.
  case_decide as Hi; [done | exfalso; lia].
Qed.

(** *** The ends of the colour range

    For incomes that double precision holds exactly, neither the rounding
    nor the padding leaves the 64-bit range. *)

Lemma startup_endpoints features csv st :
  startup features csv = Ok st →
  Forall moderate (avg_income <$> df_income_long st) →
  ∃ largest smallest,
    maximum_of (avg_income <$> df_income_long st) largest
    ∧ minimum_of (avg_income <$> df_income_long st) smallest
    ∧ moderate largest ∧ moderate smallest
    ∧ max_value_colorbar st = PyNum.round_int largest (-4) + 10000
    ∧ min_value_colorbar st = PyNum.round_int smallest (-4) - 10000.
Proof.
  intros Hst Hmod.
  destruct (startup_Ok_inv _ _ _ Hst)
    as (rows & _ & _ & _ & _ & Hhi & Hlo & _ & _).
  unfold max_value_colorbar_of in Hhi. unfold min_value_colorbar_of in Hlo.
  destruct (Pandas.max _) as [largest|] eqn:Hmax; [|done].
  destruct (Pandas.min _) as [smallest|] eqn:Hmin; [|done].
  apply pandas_max_Some in Hmax. apply pandas_min_Some in Hmin.
  rewrite Forall_forall in Hmod.
  pose proof (Hmod _ (proj1 Hmax)) as Hml.
  pose proof (Hmod _ (proj1 Hmin)) as Hms.
  pose proof (round_int_within largest Hml) as Hl.
  pose proof (round_int_within smallest Hms) as Hs.
  simpl in Hhi, Hlo. injection Hhi as <-. injection Hlo as <-.
  exists largest, smallest.
  split_and!; [done..| |]; apply wrap64_id;
    unfold moderate in Hml, Hms; unfold int64; lia.
Qed.

(** ** The colour scale *)

(** C2, for incomes of at most 10^15 in magnitude: the upper end of the
    colour range is the largest avg_income, rounded to a nearest multiple of
    10,000, plus 10,000; the lower end is the smallest avg_income, rounded
    to a nearest multiple of 10,000, minus 10,000. *)
Theorem colorbar_endpoints (features : list Feature) (csv : WideFrame)
    (st : AppState) :
  startup features csv = Ok st →
  Forall moderate (avg_income <$> df_income_long st) →
  ∃ largest smallest rounded_largest rounded_smallest,
    maximum_of (avg_income <$> df_income_long st) largest
    ∧ minimum_of (avg_income <$> df_income_long st) smallest
    ∧ nearest_multiple 10000 largest rounded_largest
    ∧ nearest_multiple 10000 smallest rounded_smallest
    ∧ max_value_colorbar st = rounded_largest + 10000
    ∧ min_value_colorbar st = rounded_smallest - 10000.
Proof.
  intros Hst Hmod.
  destruct (startup_endpoints _ _ _ Hst Hmod)
    as (largest & smallest & Hmax & Hmin & Hml & Hms & Hhi & Hlo).
  exists largest, smallest, (PyNum.round_int largest (-4)),
    (PyNum.round_int smallest (-4)).
  split_and!; try done; by apply round_int_nearest.
Qed.

Lemma colorbar_endpoints_witness :
  ∃ largest smallest rounded_largest rounded_smallest,
    maximum_of (avg_income <$> df_income_long sample_state) largest
    ∧ minimum_of (avg_income <$> df_income_long sample_state) smallest
    ∧ nearest_multiple 10000 largest rounded_largest
    ∧ nearest_multiple 10000 smallest rounded_smallest
    ∧ max_value_colorbar sample_state = rounded_largest + 10000
    ∧ min_value_colorbar sample_state = rounded_smallest - 10000.
Proof.
  apply (colorbar_endpoints sample_features sample_csv sample_state).
  - vm_compute. reflexivity.
  - apply (bool_decide_unpack (Forall moderate _)). vm_compute. reflexivity.
Defined.

(** C2 as the specification words it fails for an income that double
    precision does not hold: for 9,007,199,254,745,001 the nearest multiple
    of 10,000 is 9,007,199,254,750,000, and [round] gives
    9,007,199,254,740,000, so that the upper end is 9,007,199,254,750,000
    and not 9,007,199,254,760,000. *)
Lemma colorbar_endpoints_double_precision :
  startup sample_features sample_csv_large = Ok sample_state_large
  ∧ ¬ (∃ largest smallest rounded_largest rounded_smallest,
         maximum_of (avg_income <$> df_income_long sample_state_large) largest
         ∧ minimum_of (avg_income <$> df_income_long sample_state_large)
             smallest
         ∧ nearest_multiple 10000 largest rounded_largest
         ∧ nearest_multiple 10000 smallest rounded_smallest
         ∧ max_value_colorbar sample_state_large = rounded_largest + 10000
         ∧ min_value_colorbar sample_state_large = rounded_smallest - 10000).
Proof.
  split; [vm_compute; reflexivity|].
  intros (largest & smallest & rl & rs & [Hin _] & _ & [_ Hnear] & _ & Hhi & _).
  simpl in Hin, Hhi. apply list_elem_of_singleton in Hin as ->.
  specialize (Hnear 9007199254750000 ltac:(by exists 900719925475)).
  lia.
Qed.

(** C1, as the code has it: the ticks are strictly increasing and exactly
    40,000 apart; and for incomes of at most 10^15 in magnitude the
    smallest tick is [min_value_colorbar]; the largest tick is below
    [max_value_colorbar], by at most 40,000; and it is the colour range from
    [min_value_colorbar] to [max_value_colorbar], not the tick list, that
    contains every observed avg_income. *)
Theorem colorbar_ticks (features : list Feature) (csv : WideFrame)
    (st : AppState) :
  startup features csv = Ok st →
  increasing (colorbar_values st)
  ∧ evenly_spaced 40000 (colorbar_values st)
  ∧ (Forall moderate (avg_income <$> df_income_long st) →
     head (colorbar_values st) = Some (min_value_colorbar st)
     ∧ (∃ top, last (colorbar_values st) = Some top
          ∧ max_value_colorbar st - 40000 ≤ top < max_value_colorbar st)
     ∧ (∀ x, x ∈ avg_income <$> df_income_long st →
          min_value_colorbar st ≤ x ≤ max_value_colorbar st)).
Proof.
  intros Hst.
  destruct (startup_Ok_inv _ _ _ Hst)
    as (rows & _ & _ & _ & _ & _ & _ & Hvalues & _).
  rewrite Hvalues. split_and!.
  - by apply range_items_increasing.
  - apply range_items_evenly_spaced.
  - intros Hmod.
    destruct (startup_endpoints _ _ _ Hst Hmod)
      as (largest & smallest & [Hlin Hmax] & [Hsin Hmin] & Hml & Hms
          & Hhi & Hlo).
    pose proof (round_int_within largest Hml) as Hrl.
    pose proof (round_int_within smallest Hms) as Hrs.
    pose proof (Hmax _ Hsin) as Hle.
    assert (min_value_colorbar st < max_value_colorbar st) as Hlt by lia.
    split_and!.
    + by apply range_items_head.
    + by apply range_items_last.
    + intros x Hx. specialize (Hmax x Hx). specialize (Hmin x Hx). lia.
Qed.

Lemma colorbar_ticks_witness :
  increasing (colorbar_values sample_state)
  ∧ evenly_spaced 40000 (colorbar_values sample_state)
  ∧ head (colorbar_values sample_state) = Some 260000
  ∧ (∃ top, last (colorbar_values sample_state) = Some top
       ∧ 350000 - 40000 ≤ top < 350000)
  ∧ (∀ x, x ∈ avg_income <$> df_income_long sample_state →
       260000 ≤ x ≤ 350000).
Proof.
  destruct (colorbar_ticks sample_features sample_csv sample_state)
    as (Hincreasing & Hspaced & Hrest).
  - vm_compute. reflexivity.
  - destruct Hrest as (Hhead & Hlast & Hwithin).
    + apply (bool_decide_unpack (Forall moderate _)). vm_compute. reflexivity.
    + split_and!; assumption.
Defined.

(** C1 as the specification words it fails on the sample: the ticks are
    260,000, 300,000 and 340,000, and the largest avg_income is 343,500. *)
Lemma colorbar_ticks_do_not_bound :
  startup sample_features sample_csv = Ok sample_state
  ∧ ¬ (increasing (colorbar_values sample_state)
       ∧ evenly_spaced 40000 (colorbar_values sample_state)
       ∧ ticks_bound (avg_income <$> df_income_long sample_state)
           (colorbar_values sample_state)).
Proof.
  split; [vm_compute; reflexivity|].
  intros (_ & _ & lo & hi & _ & Hlast & Hbound).
  injection Hlast as <-.
  destruct (Hbound 343500) as [_ Hhi]; [|lia].
  do 2 right. by left.
Qed.

(** ** The year slider *)

Lemma marks_of_snoc years y :
  marks_of (years ++ [y]) = <[PyStr.str y := PyStr.str y]> (marks_of years).
Proof. unfold marks_of. by rewrite foldl_app. Qed.

Lemma marks_of_lookup years k v :
  marks_of years !! k = Some v
  ↔ ∃ y, y ∈ years ∧ k = PyStr.str y ∧ v = PyStr.str y.
Proof.
  induction years as [|y years IH] using rev_ind.
  - unfold marks_of; simpl. rewrite lookup_empty.
    split; [done|]. intros (y & Hy & _). by apply elem_of_nil in Hy.
  - rewrite marks_of_snoc, lookup_insert. case_decide as Hk.
    + split.
      * intros [= <-]. exists y. split_and!; [|done..].
        apply elem_of_app; right. by left.
      * intros (y' & _ & -> & ->). apply (inj PyStr.str) in Hk. by subst.
    + rewrite IH. split.
      * intros (y' & Hy' & ? & ?). exists y'. split_and!; [|done..].
        apply elem_of_app; by left.
      * intros (y' & Hy' & -> & ->). exists y'. split_and!; [|done..].
        apply elem_of_app in Hy' as [?|Hy']; [done|].
        apply list_elem_of_singleton in Hy' as ->. done.
Qed.

Lemma marks_of_size years : NoDup years → size (marks_of years) = length years.
Proof.
  induction years as [|y years IH] using rev_ind; intros Hnd.
  - done.
  - apply NoDup_app in Hnd as (Hnd & Hy & _).
    rewrite marks_of_snoc, length_app, map_size_insert_None.
    + rewrite IH by done. simpl. lia.
    + destruct (marks_of years !! PyStr.str y) as [v|] eqn:Hv; [|done].
      apply marks_of_lookup in Hv as (y' & Hy' & Heq & _).
      apply (inj PyStr.str) in Heq as ->.
      destruct (Hy _ Hy'). by left.
Qed.

Lemma unique_NoDup col : NoDup (Pandas.unique col).
Proof.
  unfold Pandas.unique. rewrite reverse_Permutation. apply NoDup_remove_dups.
Qed.

Lemma elem_of_unique col y : y ∈ Pandas.unique col ↔ y ∈ col.
Proof.
  unfold Pandas.unique.
  by rewrite elem_of_reverse, elem_of_remove_dups, elem_of_reverse.
Qed.

Lemma startup_nonempty features csv st :
  startup features csv = Ok st → df_income_long st ≠ [].
Proof.
  intros Hst Hnil.
  destruct (startup_Ok_inv _ _ _ Hst) as (_ & _ & _ & _ & _ & Hhi & _).
  by rewrite Hnil in Hhi.
Qed.

(** C10: the slider starts on the largest year of the long table, runs from
    the smallest to the largest year, has no step and carries exactly one
    mark, labelled with the year, for every distinct year; the redraw for
    the initial value shows the rows of that largest year, and there are
    such rows. *)
Theorem year_slider_initial (features : list Feature) (csv : WideFrame)
    (st : AppState) :
  startup features csv = Ok st →
  ∃ earliest latest distinct,
    minimum_of (year <$> df_income_long st) earliest
    ∧ maximum_of (year <$> df_income_long st) latest
    ∧ slider_min (year_slider st) = PyInt earliest
    ∧ slider_max (year_slider st) = PyInt latest
    ∧ slider_value (year_slider st) = PyInt latest
    ∧ slider_step (year_slider st) = None
    ∧ NoDup distinct
    ∧ (∀ y, y ∈ distinct ↔ y ∈ year <$> df_income_long st)
    ∧ size (slider_marks (year_slider st)) = length distinct
    ∧ (∀ y, y ∈ distinct →
         slider_marks (year_slider st) !! PyStr.str y = Some (PyStr.str y))
    ∧ ∃ fig,
        update_figure latest st = (fig, st)
        ∧ customdata (trace fig)
          = cells <$> filter (λ r, year r = latest) (df_income_long st)
        ∧ customdata (trace fig) ≠ []
        ∧ ∀ c, c ∈ customdata (trace fig) → c.1.2 = latest.
Proof.
  intros Hst. pose proof (startup_nonempty _ _ _ Hst) as Hne.
  destruct (Pandas.min (year <$> df_income_long st)) as [earliest|] eqn:Hmin;
    [|by destruct (df_income_long st)].
  destruct (Pandas.max (year <$> df_income_long st)) as [latest|] eqn:Hmax;
    [|by destruct (df_income_long st)].
  exists earliest, latest, (Pandas.unique (year <$> df_income_long st)).
  pose proof (pandas_max_Some _ _ Hmax) as [Hlatest Hub].
  unfold year_slider; simpl. rewrite Hmin, Hmax.
  split_and!; try done.
  - by apply pandas_min_Some.
  - apply unique_NoDup.
  - apply elem_of_unique.
  - apply marks_of_size, unique_NoDup.
  - intros y Hy. apply marks_of_lookup. by exists y.
  - eexists. rewrite update_figure_unfold. split; [done|]. simpl.
    unfold filter_year. split_and!.
    + done.
    + apply list_elem_of_fmap in Hlatest as (r & -> & Hr).
      intros Hnil. apply fmap_nil_inv in Hnil.
      eapply (filter_nil_not_elem_of _ _ r); [exact Hnil|done|done].
    + intros c Hc. apply list_elem_of_fmap in Hc as (r & -> & Hr).
      apply list_elem_of_filter in Hr as [Hr _]. exact Hr.
Qed.

Lemma year_slider_initial_witness :
  slider_value (year_slider sample_state) = PyInt 2019
  ∧ ∃ earliest latest distinct,
    minimum_of (year <$> df_income_long sample_state) earliest
    ∧ maximum_of (year <$> df_income_long sample_state) latest
    ∧ slider_min (year_slider sample_state) = PyInt earliest
    ∧ slider_max (year_slider sample_state) = PyInt latest
    ∧ slider_value (year_slider sample_state) = PyInt latest
    ∧ slider_step (year_slider sample_state) = None
    ∧ NoDup distinct
    ∧ (∀ y, y ∈ distinct ↔ y ∈ year <$> df_income_long sample_state)
    ∧ size (slider_marks (year_slider sample_state)) = length distinct
    ∧ (∀ y, y ∈ distinct →
         slider_marks (year_slider sample_state) !! PyStr.str y
         = Some (PyStr.str y))
    ∧ ∃ fig,
        update_figure latest sample_state = (fig, sample_state)
        ∧ customdata (trace fig)
          = cells <$> filter (λ r, year r = latest)
                        (df_income_long sample_state)
        ∧ customdata (trace fig) ≠ []
        ∧ ∀ c, c ∈ customdata (trace fig) → c.1.2 = latest.
Proof.
  split; [reflexivity|].
  apply (year_slider_initial sample_features sample_csv sample_state).
  vm_compute. reflexivity.
Defined.


(** ** The redraw for a year of the table *)

Section blocks.
Context {A : Type} (P : A → Prop) `{!∀ x, Decision (P x)}.

Lemma filter_all (l : list A) : Forall P l → filter P l = l.
Proof.
  induction 1 as [|x l Hx _ IH]; [done|].
  by rewrite filter_cons_True, IH.
Qed.

Lemma filter_none (l : list A) : Forall (λ x, ¬ P x) l → filter P l = [].
Proof.
  induction 1 as [|x l Hx _ IH]; [done|].
  by rewrite filter_cons_False.
Qed.

(** When one block satisfies [P] throughout and no element of another block
    does, filtering the concatenation leaves that block. *)
Lemma filter_join_block (blocks : list (list A)) (j0 : nat) (b : list A) :
  blocks !! j0 = Some b →
  Forall P b →
  (∀ j b' x, blocks !! j = Some b' → x ∈ b' → P x → j = j0) →
  filter P (mjoin blocks) = b.
Proof.
  revert j0. induction blocks as [|b0 blocks IH]; intros j0 Hb HP Hother.
  { by rewrite lookup_nil in Hb. }
  change (mjoin (b0 :: blocks)) with (b0 ++ mjoin blocks).
  rewrite filter_app. destruct j0 as [|j0]; simpl in Hb.
  - injection Hb as ->. rewrite filter_all by done.
    rewrite filter_none; [by rewrite app_nil_r|].
    apply Forall_forall. intros x Hx HPx.
    apply list_elem_of_join in Hx as (b' & Hx & Hb').
    apply list_elem_of_lookup in Hb' as [j Hj].
    by specialize (Hother (S j) b' x Hj Hx HPx).
  - rewrite filter_none.
    + apply (IH j0); [done..|]. intros j b' x Hj Hx HPx.
      specialize (Hother (S j) b' x Hj Hx HPx). lia.
    + apply Forall_forall. intros x Hx HPx.
      by specialize (Hother 0%nat b0 x eq_refl Hx HPx).
Qed.
End blocks.

Lemma Forall2_join_inv {A B} (R : A → B → Prop) (ls : list (list A))
    (long : list B) :
  Forall2 R (mjoin ls) long →
  ∃ blocks, long = mjoin blocks ∧ Forall2 (Forall2 R) ls blocks.
Proof.
  revert long. induction ls as [|l ls IH]; intros long Hlong.
  - apply Forall2_nil_inv_l in Hlong as ->. by exists [].
  - change (mjoin (l :: ls)) with (l ++ mjoin ls) in Hlong.
    apply Forall2_app_inv_l in Hlong as (k1 & k2 & Hk1 & Hk2 & ->).
    destruct (IH _ Hk2) as (blocks & -> & Hblocks).
    exists (k1 :: blocks). split; [done | by constructor].
Qed.

Lemma startup_rows features csv st :
  startup features csv = Ok st →
  Forall2 (long_row_of (build_id_map features))
    (Pandas.melt (clean csv)) (df_income_long st).
Proof.
  intros Hst.
  destruct (startup_Ok_inv _ _ _ Hst) as (rows & Hcast & Hids & _).
  apply astype_int_Ok in Hcast. apply attach_ids_Ok in Hids.
  eapply Forall2_trans; [|exact Hcast|exact Hids].
  intros r r' r'' (Hy & _ & Hd & Hv) (Hi & Hd' & Hy' & Hv').
  unfold long_row_of. rewrite Hy', Hd', Hv', <- Hd. done.
Qed.

Lemma hover_template_placeholders :
  hover_template
  = "</br><b>" +:+ placeholder 0 "" +:+ "</b></br>"
    +:+ "Year: " +:+ placeholder 1 "" +:+ "</br>"
    +:+ "Avg. income: " +:+ placeholder 2 ":,.d" +:+ " dkr.".
Proof. vm_compute. reflexivity. Qed.

Lemma melt_column_lookup ids col i r :
  Pandas.melt_column ids col !! i = Some r →
  ∃ d v, ids !! i = Some d ∧ col.2 !! i = Some v
    ∧ r = {| district := d; year := col.1; avg_income := v; id := () |}.
Proof.
  unfold Pandas.melt_column. rewrite list_lookup_fmap.
  destruct (zip ids col.2 !! i) as [[d v]|] eqn:Hzip; [|done].
  intros [= <-]. apply lookup_zip_Some in Hzip as [Hd Hv].
  by exists d, v.
Qed.

Lemma block_year m ids col b r' :
  Forall2 (long_row_of m) (Pandas.melt_column ids col) b →
  r' ∈ b → PyStr.int col.1 = Ok (year r').
Proof.
  intros Hb Hr'. apply list_elem_of_lookup in Hr' as [i Hi].
  destruct (Forall2_lookup_r _ _ _ _ _ Hb Hi) as (r & Hr & Hy & _).
  apply melt_column_lookup in Hr as (d & v & _ & _ & ->). exact Hy.
Qed.

(** C9: for a year [Y] of the long table, built from a rectangular CSV whose
    year columns are cast to distinct years, the figure has one region per
    district row of the CSV: region [i] is located at the feature id that
    [districts_id_map] gives for the cleaned name of district [i], which is
    the id of a feature of the map, is coloured by the avg_income of that
    district in the column of [Y], and carries the custom data (district
    name, [Y], avg_income).  The hover template reads the district from
    custom-data cell 0, prints "Year: " before cell 1 and "Avg. income: "
    before cell 2, formatted with [,.d], and " dkr." after it; the layout
    sets the separators to ",.", a dot between thousands. *)
Theorem update_figure_known_year (features : list Feature) (csv : WideFrame)
    (st : AppState) (Y : Z) :
  startup features csv = Ok st →
  rectangular csv →
  distinct_years csv →
  Y ∈ year <$> df_income_long st →
  ∃ fig j label column,
    update_figure Y st = (fig, st)
    ∧ wide_columns csv !! j = Some (label, column)
    ∧ PyStr.int label = Ok Y
    ∧ length (locations (trace fig)) = length (wide_district csv)
    ∧ (∀ i d v,
         clean_districts (wide_district csv) !! i = Some d →
         column !! i = Some v →
         ∃ feature,
           feature ∈ geojson (trace fig)
           ∧ navn feature = d
           ∧ districts_id_map st !! d = Some (feature_id feature)
           ∧ locations (trace fig) !! i = Some (feature_id feature)
           ∧ z (trace fig) !! i = Some v
           ∧ customdata (trace fig) !! i = Some (d, Y, v))
    ∧ hovertemplate (trace fig)
      = "</br><b>" +:+ placeholder 0 "" +:+ "</b></br>"
        +:+ "Year: " +:+ placeholder 1 "" +:+ "</br>"
        +:+ "Avg. income: " +:+ placeholder 2 ":,.d" +:+ " dkr."
    ∧ separators (layout fig) = ",.".
Proof.
  intros Hst Hrect Hdistinct HY.
  pose proof (startup_rows _ _ _ Hst) as Hrows.
  destruct (startup_Ok_inv _ _ _ Hst) as (_ & _ & _ & Hgeo & Hmap & _).
  unfold Pandas.melt in Hrows.
  apply Forall2_join_inv in Hrows as (blocks & Hlong & Hblocks).
  change (wide_columns (clean csv)) with (wide_columns csv) in Hblocks.
  change (wide_district (clean csv))
    with (clean_districts (wide_district csv)) in Hblocks.
  assert (length (clean_districts (wide_district csv))
          = length (wide_district csv)) as Hlen.
  { unfold clean_districts, Pandas.replace, Pandas.str_slice_from.
    by rewrite !length_fmap. }
  (* the block of [Y] *)
  apply list_elem_of_fmap in HY as (r & HYr & Hr).
  rewrite Hlong in Hr. apply list_elem_of_join in Hr as (b & Hrb & Hb).
  apply list_elem_of_lookup in Hb as [j0 Hj0].
  destruct (Forall2_lookup_r _ _ _ _ _ Hblocks Hj0) as (mc & Hmc & Hmcb).
  rewrite list_lookup_fmap in Hmc.
  destruct (wide_columns csv !! j0) as [[label column]|] eqn:Hcol; [|done].
  injection Hmc as <-.
  pose proof (block_year _ _ _ _ _ Hmcb Hrb) as Hlabel.
  simpl in Hlabel. rewrite <- HYr in Hlabel.
  assert (Forall (λ r', year r' = Y) b) as HallY.
  { apply Forall_forall. intros r' Hr'.
    pose proof (block_year _ _ _ _ _ Hmcb Hr') as Hy. simpl in Hy. congruence. }
  assert (∀ j b' x, blocks !! j = Some b' → x ∈ b' → year x = Y → j = j0)
    as Hother.
  { intros j b' x Hj Hx Hyx.
    destruct (Forall2_lookup_r _ _ _ _ _ Hblocks Hj) as (mc' & Hmc' & Hb').
    rewrite list_lookup_fmap in Hmc'.
    destruct (wide_columns csv !! j) as [col'|] eqn:Hcol'; [|done].
    injection Hmc' as <-.
    pose proof (block_year _ _ _ _ _ Hb' Hx) as Hy'. rewrite Hyx in Hy'.
    eapply (NoDup_lookup _ j j0 (Ok Y)); [exact Hdistinct|..].
    - by rewrite list_lookup_fmap, Hcol'; simpl; rewrite Hy'.
    - by rewrite list_lookup_fmap, Hcol; simpl; rewrite Hlabel. }
  assert (filter_year Y (df_income_long st) = b) as Hfilter.
  { unfold filter_year. rewrite Hlong.
    by apply (filter_join_block _ blocks j0). }
  exists (update_figure Y st).1, j0, label, column.
  rewrite update_figure_unfold. simpl. rewrite Hfilter.
  split_and!; try done.
  - rewrite length_fmap, <- (Forall2_length _ _ _ Hmcb), <- Hlen.
    apply melt_column_length; simpl.
    unfold rectangular in Hrect. rewrite Forall_forall in Hrect.
    rewrite Hlen.
    apply (Hrect (label, column)). by eapply list_elem_of_lookup_2.
  - intros i d v Hd Hv.
    assert (Pandas.melt_column (clean_districts (wide_district csv))
              (label, column) !! i
            = Some {| district := d; year := label; avg_income := v;
                      id := () |}) as Hrow.
    { unfold Pandas.melt_column. rewrite list_lookup_fmap; simpl.
      assert (zip (clean_districts (wide_district csv)) column !! i
              = Some (d, v)) as ->; [|done].
      by apply lookup_zip_Some. }
    destruct (Forall2_lookup_l _ _ _ _ _ Hmcb Hrow)
      as (r' & Hr' & _ & Hd' & Hv' & Hid).
    simpl in Hd', Hv', Hid.
    destruct (build_id_map_Some _ _ _ Hid) as (feature & Hin & Hnavn & Hfid).
    rewrite Forall_forall in HallY.
    pose proof (HallY r' ltac:(by eapply list_elem_of_lookup_2)) as Hy'.
    exists feature. rewrite !list_lookup_fmap, Hr'. simpl.
    rewrite Hgeo, Hmap, Hfid, Hd', Hv', Hy'. by split_and!.
Qed.

Lemma update_figure_known_year_witness :
  ∃ fig j label column,
    update_figure 2019 sample_state = (fig, sample_state)
    ∧ wide_columns sample_csv !! j = Some (label, column)
    ∧ PyStr.int label = Ok 2019
    ∧ length (locations (trace fig)) = length (wide_district sample_csv)
    ∧ (∀ i d v,
         clean_districts (wide_district sample_csv) !! i = Some d →
         column !! i = Some v →
         ∃ feature,
           feature ∈ geojson (trace fig)
           ∧ navn feature = d
           ∧ districts_id_map sample_state !! d = Some (feature_id feature)
           ∧ locations (trace fig) !! i = Some (feature_id feature)
           ∧ z (trace fig) !! i = Some v
           ∧ customdata (trace fig) !! i = Some (d, 2019, v))
    ∧ hovertemplate (trace fig)
      = "</br><b>" +:+ placeholder 0 "" +:+ "</b></br>"
        +:+ "Year: " +:+ placeholder 1 "" +:+ "</br>"
        +:+ "Avg. income: " +:+ placeholder 2 ":,.d" +:+ " dkr."
    ∧ separators (layout fig) = ",.".
Proof.
  apply (update_figure_known_year sample_features sample_csv sample_state 2019).
  - vm_compute. reflexivity.
  - unfold rectangular. repeat constructor.
  - unfold distinct_years. vm_compute.
    apply NoDup_cons. split.
    + intros Hin. apply list_elem_of_singleton in Hin. discriminate Hin.
    + apply NoDup_singleton.
  - vm_compute. do 2 right. by left.
Defined.

(** C9 as the specification words it fails when two year headers are cast
    to the same year: with the headers "2018" and " 2018" the long table has
    every district twice for 2018, and the figure for 2018 has four regions
    for the two districts. *)
Lemma update_figure_same_year_twice :
  ∃ st,
    startup sample_features sample_csv_same_year = Ok st
    ∧ rectangular sample_csv_same_year
    ∧ 2018 ∈ year <$> df_income_long st
    ∧ locations (trace (update_figure 2018 st).1)
      = [IdInt 1; IdInt 5; IdInt 1; IdInt 5]
    ∧ length (locations (trace (update_figure 2018 st).1))
      ≠ length (wide_district sample_csv_same_year).
Proof.
  eexists. split; [vm_compute; reflexivity|].
  split; [unfold rectangular; repeat constructor|].
  split; [by left|].
  split; [vm_compute; reflexivity|].
  vm_compute. discriminate.
Qed.

Example update_figure_sample :
  locations (trace (update_figure 2019 sample_state).1) = [IdInt 1; IdInt 5]
  ∧ z (trace (update_figure 2019 sample_state).1) = [343500; 271900]
  ∧ customdata (trace (update_figure 2019 sample_state).1)
    = [("Indre By", 2019, 343500); ("Vesterbro-Kongens Enghave", 2019, 271900)]
  ∧ tickvals (layout (update_figure 2019 sample_state).1)
    = [260000; 300000; 340000]
  ∧ ticktext (layout (update_figure 2019 sample_state).1)
    = ["260.000"; "300.000"; "340.000"]
  ∧ range_color (layout (update_figure 2019 sample_state).1)
    = (260000, 350000).
Proof. vm_compute. done. Qed.


(** ** Cleaning of the district names *)

(** C7: in the table that startup reshapes, every district cell has lost its
    first 11 characters (all of them when it has fewer), and of the names
    that remain only the literal "Vesterbro/Kongens Enghave" is changed, into
    "Vesterbro-Kongens Enghave"; the column keeps its length and order and
    the year columns are untouched.  The long table holds the name so
    cleaned at the rows of the district, and it is under this name that the
    feature id of the row is looked up. *)
Theorem clean_districts_cell (features : list Feature) (csv : WideFrame)
    (i : nat) (cell : string) :
  wide_district csv !! i = Some cell →
  ∃ prefix name,
    cell = prefix +:+ name
    ∧ String.length prefix = (11 `min` String.length cell)%nat
    ∧ wide_columns (clean csv) = wide_columns csv
    ∧ length (wide_district (clean csv)) = length (wide_district csv)
    ∧ wide_district (clean csv) !! i
      = Some (if decide (name = "Vesterbro/Kongens Enghave")
              then "Vesterbro-Kongens Enghave" else name)
    ∧ ∀ st j label column v,
        startup features csv = Ok st →
        rectangular csv →
        wide_columns csv !! j = Some (label, column) →
        column !! i = Some v →
        ∃ r,
          df_income_long st !! (j * length (wide_district csv) + i)%nat
          = Some r
          ∧ district r
            = (if decide (name = "Vesterbro/Kongens Enghave")
               then "Vesterbro-Kongens Enghave" else name)
          ∧ avg_income r = v
          ∧ districts_id_map st !! district r = Some (id r).
Proof.
  intros Hcell.
  assert (wide_district (clean csv) !! i
          = Some (if decide (PyStr.slice_from 11 cell
                             = "Vesterbro/Kongens Enghave")
                  then "Vesterbro-Kongens Enghave"
                  else PyStr.slice_from 11 cell)) as Hclean.
  { unfold clean, clean_districts, Pandas.replace, Pandas.str_slice_from.
    simpl. rewrite !list_lookup_fmap, Hcell. done. }
  exists (PyStr.slice_to 11 cell), (PyStr.slice_from 11 cell).
  split_and!.
  - symmetry. apply slice_to_from.
  - apply slice_to_length.
  - done.
  - apply clean_districts_length.
  - exact Hclean.
  - intros st j label column v Hst Hrect Hcol Hv.
    pose proof (startup_rows _ _ _ Hst) as Hrows.
    destruct (startup_Ok_inv _ _ _ Hst) as (_ & _ & _ & _ & Hmap & _).
    pose proof (melt_lookup (clean csv) i j _ label column v
                  (rectangular_clean _ Hrect) Hclean Hcol Hv) as Hrow.
    change (wide_district (clean csv))
      with (clean_districts (wide_district csv)) in Hrow.
    rewrite clean_districts_length in Hrow.
    destruct (Forall2_lookup_l _ _ _ _ _ Hrows Hrow)
      as (r & Hr & _ & Hd & Hv' & Hid).
    simpl in Hd, Hv', Hid.
    exists r. rewrite Hmap, Hd. by split_and!.
Qed.

Lemma clean_districts_cell_witness :
  ∃ prefix name,
    "Bydel - 05 Vesterbro/Kongens Enghave" = prefix +:+ name
    ∧ String.length prefix = 11%nat
    ∧ wide_district (clean sample_csv) !! 1%nat
      = Some (if decide (name = "Vesterbro/Kongens Enghave")
              then "Vesterbro-Kongens Enghave" else name)
    ∧ ∃ r,
        df_income_long sample_state !! 3%nat = Some r
        ∧ district r
          = (if decide (name = "Vesterbro/Kongens Enghave")
             then "Vesterbro-Kongens Enghave" else name)
        ∧ avg_income r = 271900
        ∧ districts_id_map sample_state !! district r = Some (id r).
Proof.
  destruct (clean_districts_cell sample_features sample_csv 1
              "Bydel - 05 Vesterbro/Kongens Enghave" eq_refl)
    as (prefix & name & Hcell & Hprefix & _ & _ & Hclean & Hlong).
  exists prefix, name. split_and!; [done..|].
  apply (Hlong sample_state 1%nat "2019" [343500; 271900] 271900).
  - vm_compute. reflexivity.
  - unfold rectangular. repeat constructor.
  - reflexivity.
  - reflexivity.
Defined.

Example clean_sample :
  wide_district (clean sample_csv) = [ "Indre By"; "Vesterbro-Kongens Enghave" ].
Proof. reflexivity. Qed.

(** * Further properties of the script *)

(** ** The name lookup *)

Lemma build_id_map_snoc features feature :
  build_id_map (features ++ [feature])
  = <[navn feature := feature_id feature]> (build_id_map features).
Proof. unfold build_id_map. by rewrite foldl_app. Qed.

(** X1: [districts_id_map] maps a name to the id of the last feature of the
    boundary file that carries the name, and has no entry for a name that no
    feature carries. *)
Theorem build_id_map_last_wins (features : list Feature) (name : string) :
  build_id_map features !! name
  = feature_id <$> last (filter (λ feature, navn feature = name) features).
Proof.
  induction features as [|feature features IH] using rev_ind; [done|].
  rewrite build_id_map_snoc, lookup_insert, filter_app.
  case_decide as Hname.
  - rewrite (filter_cons_True _ feature) by done.
    change (filter _ []) with (@nil Feature). by rewrite last_snoc.
  - rewrite (filter_cons_False _ feature) by done.
    change (filter _ []) with (@nil Feature). by rewrite app_nil_r.
Qed.

Example build_id_map_twice :
  build_id_map sample_features_twice !! "Indre By" = Some (IdInt 7)
  ∧ build_id_map sample_features_twice !! "Amager Vest" = Some (IdStr "a")
  ∧ build_id_map sample_features_twice !! "Valby" = None.
Proof. vm_compute. done. Qed.

(** ** How startup ends *)

Lemma traverse_app_Err {A B} (f : A → Result B) l1 x l2 e :
  Forall (λ x, is_Ok (f x)) l1 → f x = Err e →
  traverse f (l1 ++ x :: l2) = Err e.
Proof.
  induction 1 as [|x' l1 [y Hy] _ IH]; intros Hx; simpl.
  - by rewrite Hx.
  - rewrite Hy; simpl. by rewrite IH.
Qed.

Lemma int_Err label : ¬ is_Ok (PyStr.int label) →
  PyStr.int label = Err (ValueError label).
Proof.
  unfold PyStr.int. intros Hnot.
  destruct (match PyStr.strip label with
            | EmptyString => _ | String _ _ => _ end) as [z|]; [|done].
  destruct Hnot. by eexists.
Qed.

Lemma melt_nil df :
  wide_district df = [] ∨ wide_columns df = [] → Pandas.melt df = [].
Proof.
  unfold Pandas.melt. intros [Hd| ->]; [|done]. rewrite Hd.
  induction (wide_columns df) as [|col cols IH]; [done|].
  csimpl. by rewrite IH.
Qed.

(** X2: a CSV without district rows, or without a column besides the
    district column, stops startup with [TypeError]: the aggregates of the
    empty income column are NaN, which [range] does not accept. *)
Theorem startup_empty_table (features : list Feature) (csv : WideFrame) :
  wide_district csv = [] ∨ wide_columns csv = [] →
  startup features csv = Err TypeError.
Proof.
  intros Hempty. unfold startup.
  rewrite (melt_nil (clean csv)); [done|].
  destruct Hempty as [Hd|Hc]; [left|right]; simpl; [|done].
  by rewrite Hd.
Qed.

Lemma startup_empty_table_witness :
  startup sample_features sample_csv_no_rows = Err TypeError.
Proof.
  apply (startup_empty_table sample_features sample_csv_no_rows).
  left. reflexivity.
Defined.

Lemma melt_app df cols1 cols2 :
  wide_columns df = cols1 ++ cols2 →
  Pandas.melt df
  = mjoin (Pandas.melt_column (wide_district df) <$> cols1)
    ++ mjoin (Pandas.melt_column (wide_district df) <$> cols2).
Proof.
  intros Hcols. unfold Pandas.melt. rewrite Hcols, fmap_app.
  induction (Pandas.melt_column (wide_district df) <$> cols1)
    as [|b bs IH]; [done|].
  csimpl. by rewrite IH, app_assoc.
Qed.

Lemma elem_of_melt_columns ids cols r :
  r ∈ mjoin (Pandas.melt_column ids <$> cols) →
  ∃ col, col ∈ cols ∧ year r = col.1 ∧ district r ∈ ids.
Proof.
  rewrite list_elem_of_join. intros (l & Hr & Hl).
  apply list_elem_of_fmap in Hl as (col & -> & Hcol).
  apply list_elem_of_lookup in Hr as [i Hi].
  apply melt_column_lookup in Hi as (d & v & Hd & _ & ->).
  exists col. split_and!; [done..|]. by eapply list_elem_of_lookup_2.
Qed.

(** X3: when the table has a district row and the labels of the columns
    before it are integer literals within the 64-bit range, a column label
    that is not an integer literal stops startup with [ValueError] for that
    label, and a label that is an integer literal beyond the 64-bit range
    stops it with [OverflowError], whatever the boundary file holds: the
    cast comes before the id lookup. *)
Theorem startup_bad_label (features : list Feature) (csv : WideFrame)
    (cols1 cols2 : list (string * list Z)) (label : string) (column : list Z) :
  rectangular csv →
  wide_district csv ≠ [] →
  wide_columns csv = cols1 ++ (label, column) :: cols2 →
  Forall (λ col, castable col.1) cols1 →
  (¬ is_Ok (PyStr.int label) →
   startup features csv = Err (ValueError label))
  ∧ (∀ y, PyStr.int label = Ok y → ¬ int64 y →
     startup features csv = Err OverflowError).
Proof.
  intros Hrect Hrows Hcols Hcols1.
  assert (∃ r rest,
    Pandas.melt_column (wide_district (clean csv)) (label, column) = r :: rest
    ∧ year r = label) as (r & rest & Hblock & Hr).
  { unfold rectangular in Hrect. rewrite Hcols, Forall_app in Hrect.
    destruct Hrect as [_ Hcol]. apply Forall_cons in Hcol as [Hcol _].
    simpl in Hcol. unfold Pandas.melt_column; simpl.
    pose proof (clean_districts_length (wide_district csv)) as Hlen.
    destruct (clean_districts (wide_district csv)) as [|d ids].
    { destruct (wide_district csv); done. }
    destruct column as [|v column]; [by destruct (wide_district csv)|].
    by eexists _, _. }
  assert (∀ e, Pandas.to_int64 label = Err e → startup features csv = Err e)
    as Hstop.
  { intros e He. unfold startup, Pandas.astype_int.
    rewrite (melt_app (clean csv) cols1 ((label, column) :: cols2)) by done.
    rewrite fmap_cons. change (mjoin (?b :: ?bs)) with (b ++ mjoin bs).
    rewrite Hblock. rewrite <- app_comm_cons.
    rewrite (traverse_app_Err _ _ r _ e); [done| |].
    - apply Forall_forall. intros r' Hr'.
      apply elem_of_melt_columns in Hr' as (col & Hcol & -> & _).
      rewrite Forall_forall in Hcols1.
      destruct (to_int64_castable _ (Hcols1 col Hcol)) as [y ->].
      by eexists.
    - by rewrite Hr, He. }
  split.
  - intros Hlabel. apply Hstop. unfold Pandas.to_int64.
    by rewrite (int_Err label).
  - intros y Hy Hfit. apply Hstop. unfold Pandas.to_int64.
    rewrite Hy; simpl. by rewrite bool_decide_false.
Qed.

Lemma startup_bad_label_witness :
  startup [] sample_csv_repeated_year = Err (ValueError "2018.1")
  ∧ startup [] sample_csv_long_label = Err OverflowError.
Proof.
  split.
  - apply (startup_bad_label [] sample_csv_repeated_year
             [("2018", [331000; 265200])] [] "2018.1" [343500; 271900]).
    + unfold rectangular. repeat constructor.
    + discriminate.
    + reflexivity.
    + repeat constructor. exists 2018. split; [reflexivity | by vm_compute].
    + intros [y Hy]. vm_compute in Hy. discriminate Hy.
  - apply (startup_bad_label [] sample_csv_long_label
             [] [("2019", [343500; 271900])] "9223372036854775808"
             [331000; 265200]) with (y := 9223372036854775808).
    + unfold rectangular. repeat constructor.
    + discriminate.
    + reflexivity.
    + constructor.
    + vm_compute. reflexivity.
    + unfold int64. lia.
Defined.

Lemma startup_Ok_intro features csv rows long :
  Pandas.astype_int (Pandas.melt (clean csv)) = Ok rows →
  attach_ids (build_id_map features) rows = Ok long →
  Forall int64 (avg_income <$> long) →
  long ≠ [] →
  is_Ok (startup features csv).
Proof.
  intros Hrows Hlong Hfit Hne. unfold startup. rewrite Hrows; simpl.
  rewrite Hlong; simpl. unfold int64_column.
  rewrite bool_decide_true by done. simpl.
  destruct long as [|r long]; [done|].
  by eexists.
Qed.

Lemma elem_of_melt_columns_income ids cols r :
  r ∈ mjoin (Pandas.melt_column ids <$> cols) →
  ∃ col, col ∈ cols ∧ avg_income r ∈ col.2.
Proof.
  rewrite list_elem_of_join. intros (l & Hr & Hl).
  apply list_elem_of_fmap in Hl as (col & -> & Hcol).
  apply list_elem_of_lookup in Hr as [i Hi].
  apply melt_column_lookup in Hi as (d & v & _ & Hv & ->).
  exists col. split; [done|]. by eapply list_elem_of_lookup_2.
Qed.

Lemma rectangular_lookup csv j label column i :
  rectangular csv →
  wide_columns csv !! j = Some (label, column) →
  (i < length (wide_district csv))%nat →
  is_Some (column !! i).
Proof.
  unfold rectangular. rewrite Forall_forall. intros Hrect Hcol Hi.
  apply lookup_lt_is_Some.
  specialize (Hrect (label, column) ltac:(by eapply list_elem_of_lookup_2)).
  simpl in Hrect. lia.
Qed.

(** X4: for a rectangular CSV whose income cells are within the 64-bit
    range, startup reaches a state exactly when the table has a district
    row and a year column, every column label is an integer literal within
    the 64-bit range, and every cleaned district name is the name of a
    feature of the boundary file. *)
Theorem startup_Ok_iff (features : list Feature) (csv : WideFrame) :
  rectangular csv →
  Forall (λ col, Forall int64 col.2) (wide_columns csv) →
  is_Ok (startup features csv)
  ↔ wide_district csv ≠ [] ∧ wide_columns csv ≠ []
    ∧ Forall (λ col, castable col.1) (wide_columns csv)
    ∧ Forall (λ d, d ∈ navn <$> features)
        (clean_districts (wide_district csv)).
Proof.
  intros Hrect Hcells. pose proof (rectangular_clean _ Hrect) as Hrect'.
  pose proof (clean_districts_length (wide_district csv)) as Hlen.
  split.
  - intros [st Hst].
    pose proof (startup_rows _ _ _ Hst) as Hrows.
    pose proof (startup_nonempty _ _ _ Hst) as Hne.
    destruct (startup_Ok_inv _ _ _ Hst) as (rows & Hcast & _).
    apply astype_int_Ok in Hcast.
    assert (Pandas.melt (clean csv) ≠ []) as Hmelt.
    { intros Hnil. rewrite Hnil in Hrows.
      by apply Forall2_nil_inv_l in Hrows. }
    assert (wide_district csv ≠ [] ∧ wide_columns csv ≠ []) as [Hd Hc].
    { split; intros Hnil; apply Hmelt, melt_nil; [left|right]; simpl;
        by rewrite Hnil. }
    split_and!; [done..| |].
    + apply Forall_forall. intros [label column] Hcol.
      apply list_elem_of_lookup in Hcol as [j Hj].
      destruct (clean_districts (wide_district csv)) as [|d ids] eqn:Hids.
      { destruct (wide_district csv); done. }
      destruct (rectangular_lookup csv j label column 0 Hrect Hj) as [v Hv].
      { destruct (wide_district csv); [done|simpl; lia]. }
      pose proof (melt_lookup (clean csv) 0 j d label column v Hrect'
                    ltac:(by simpl; rewrite Hids) Hj Hv) as Hrow.
      destruct (Forall2_lookup_l _ _ _ _ _ Hcast Hrow)
        as (r' & _ & Hy & Hfit & _).
      by exists (year r').
    + apply Forall_forall. intros d Hd'.
      apply list_elem_of_lookup in Hd' as [i Hi].
      destruct (wide_columns csv) as [|[label column] cols] eqn:Hcols;
        [done|].
      destruct (rectangular_lookup csv 0 label column i Hrect) as [v Hv].
      { by rewrite Hcols. }
      { rewrite <- Hlen. by eapply lookup_lt_Some. }
      pose proof (melt_lookup (clean csv) i 0 d label column v Hrect'
                    Hi ltac:(by simpl; rewrite Hcols) Hv) as Hrow.
      destruct (Forall2_lookup_l _ _ _ _ _ Hrows Hrow)
        as (r' & _ & _ & _ & _ & Hid).
      apply build_id_map_is_Some. by eexists.
  - intros (Hd & Hc & Hlabels & Hnames).
    destruct (astype_int_castable (Pandas.melt (clean csv))) as [rows Hrows].
    { apply Forall_forall. intros r Hr.
      apply elem_of_melt_year in Hr as (col & Hcol & ->).
      rewrite Forall_forall in Hlabels. by apply Hlabels. }
    pose proof Hrows as Hcast. apply astype_int_Ok in Hcast.
    destruct (traverse_all_Ok (lookup_id (build_id_map features)) rows)
      as [long Hlong].
    { apply Forall_forall. intros r' Hr'.
      apply list_elem_of_lookup in Hr' as [i Hi].
      destruct (Forall2_lookup_r _ _ _ _ _ Hcast Hi)
        as (r & Hr & _ & _ & Hdr & _).
      apply lookup_id_is_Ok, build_id_map_is_Some. rewrite Hdr.
      apply list_elem_of_lookup_2 in Hr.
      apply elem_of_melt_columns in Hr as (_ & _ & _ & Hin).
      rewrite Forall_forall in Hnames. by apply Hnames. }
    change (attach_ids (build_id_map features) rows = Ok long) in Hlong.
    pose proof Hlong as Hids. apply attach_ids_Ok in Hids.
    apply (startup_Ok_intro features csv rows long); [done..| |].
    + apply Forall_forall. intros v Hv.
      apply list_elem_of_fmap in Hv as (r'' & -> & Hr'').
      apply list_elem_of_lookup in Hr'' as [i Hi].
      destruct (Forall2_lookup_r _ _ _ _ _ Hids Hi)
        as (r' & Hr' & _ & _ & _ & ->).
      destruct (Forall2_lookup_r _ _ _ _ _ Hcast Hr')
        as (r & Hr & _ & _ & _ & ->).
      apply list_elem_of_lookup_2 in Hr.
      apply elem_of_melt_columns_income in Hr as (col & Hcol & Hin).
      rewrite Forall_forall in Hcells.
      specialize (Hcells col Hcol). rewrite Forall_forall in Hcells.
      by apply Hcells.
    + intros ->. apply Forall2_nil_inv_r in Hids as ->.
      apply Forall2_nil_inv_r in Hcast.
      pose proof (melt_length (clean csv) Hrect') as Hmelt.
      rewrite Hcast in Hmelt. simpl in Hmelt. rewrite Hlen in Hmelt.
      destruct (wide_district csv), (wide_columns csv); simpl in *; done.
Qed.

Lemma startup_Ok_iff_witness :
  is_Ok (startup sample_features sample_csv)
  ↔ wide_district sample_csv ≠ [] ∧ wide_columns sample_csv ≠ []
    ∧ Forall (λ col, castable col.1) (wide_columns sample_csv)
    ∧ Forall (λ d, d ∈ navn <$> sample_features)
        (clean_districts (wide_district sample_csv)).
Proof.
  apply (startup_Ok_iff sample_features sample_csv).
  - unfold rectangular. repeat constructor.
  - apply (bool_decide_unpack
             (Forall (λ col : string * list Z, Forall int64 col.2) _)).
    vm_compute. reflexivity.
Defined.

(** ** The rows of the long table *)

Lemma elem_of_melt df r :
  r ∈ Pandas.melt df →
  ∃ col, col ∈ wide_columns df ∧ year r = col.1
    ∧ district r ∈ wide_district df ∧ avg_income r ∈ col.2.
Proof.
  unfold Pandas.melt. rewrite list_elem_of_join. intros (l & Hr & Hl).
  apply list_elem_of_fmap in Hl as (col & -> & Hcol).
  apply list_elem_of_lookup in Hr as [i Hi].
  apply melt_column_lookup in Hi as (d & v & Hd & Hv & ->).
  exists col. split_and!; [done..| |]; by eapply list_elem_of_lookup_2.
Qed.

Lemma startup_row_source features csv st r :
  startup features csv = Ok st →
  r ∈ df_income_long st →
  ∃ r0, r0 ∈ Pandas.melt (clean csv)
    ∧ long_row_of (build_id_map features) r0 r.
Proof.
  intros Hst Hr. pose proof (startup_rows _ _ _ Hst) as Hrows.
  apply list_elem_of_lookup in Hr as [i Hi].
  destruct (Forall2_lookup_r _ _ _ _ _ Hrows Hi) as (r0 & Hr0 & Hrel).
  exists r0. split; [by eapply list_elem_of_lookup_2 | done].
Qed.

Lemma clean_districts_not_misspelt col d :
  d ∈ clean_districts col → d ≠ misspelt_name.
Proof.
  unfold clean_districts, Pandas.replace, Pandas.replace_value.
  intros Hd. apply list_elem_of_fmap in Hd as (cell & -> & _).
  case_decide; [done|done].
Qed.

(** X5: every row that startup keeps comes from a cell of the CSV: its
    district is a cleaned district cell and is never the misspelt
    "Vesterbro/Kongens Enghave"; its year is the cast of the label of a
    column that holds its avg_income; and its id is the entry of its
    district in [districts_id_map], which is the id of a feature of that
    name in the boundary file. *)
Theorem long_table_row (features : list Feature) (csv : WideFrame)
    (st : AppState) (r : Row Z FeatureId) :
  startup features csv = Ok st →
  r ∈ df_income_long st →
  district r ∈ clean_districts (wide_district csv)
  ∧ district r ≠ "Vesterbro/Kongens Enghave"
  ∧ (∃ col, col ∈ wide_columns csv ∧ PyStr.int col.1 = Ok (year r)
       ∧ avg_income r ∈ col.2)
  ∧ districts_id_map st !! district r = Some (id r)
  ∧ ∃ feature, feature ∈ districts_cph st ∧ navn feature = district r
      ∧ feature_id feature = id r.
Proof.
  intros Hst Hr.
  destruct (startup_row_source _ _ _ _ Hst Hr)
    as (r0 & Hr0 & Hy & Hd & Hv & Hid).
  destruct (startup_Ok_inv _ _ _ Hst) as (_ & _ & _ & Hgeo & Hmap & _).
  apply elem_of_melt in Hr0 as (col & Hcol & Hyear & Hdistrict & Hincome).
  simpl in Hcol, Hdistrict. rewrite Hd.
  split_and!.
  - done.
  - by apply (clean_districts_not_misspelt (wide_district csv)).
  - exists col. by rewrite <- Hyear, Hv.
  - by rewrite Hmap.
  - rewrite Hgeo. by apply build_id_map_Some.
Qed.

Lemma long_table_row_witness :
  "Vesterbro-Kongens Enghave" ∈ clean_districts (wide_district sample_csv)
  ∧ "Vesterbro-Kongens Enghave" ≠ "Vesterbro/Kongens Enghave"
  ∧ (∃ col, col ∈ wide_columns sample_csv ∧ PyStr.int col.1 = Ok 2019
       ∧ 271900 ∈ col.2)
  ∧ districts_id_map sample_state !! "Vesterbro-Kongens Enghave"
    = Some (IdInt 5)
  ∧ ∃ feature, feature ∈ districts_cph sample_state
      ∧ navn feature = "Vesterbro-Kongens Enghave"
      ∧ feature_id feature = IdInt 5.
Proof.
  apply (long_table_row sample_features sample_csv sample_state
           {| district := "Vesterbro-Kongens Enghave"; year := 2019;
              avg_income := 271900; id := IdInt 5 |}).
  - vm_compute. reflexivity.
  - do 3 right. left.
Defined.

(** ** The colour range and its ticks *)

(** X6: for incomes of at most 10^15 in magnitude, both ends of the colour
    range are multiples of 10,000, the range is at least 20,000 wide, and
    every avg_income of the table lies at least 5,000 inside it. *)
Theorem color_range_margin (features : list Feature) (csv : WideFrame)
    (st : AppState) :
  startup features csv = Ok st →
  Forall moderate (avg_income <$> df_income_long st) →
  (10000 | min_value_colorbar st)
  ∧ (10000 | max_value_colorbar st)
  ∧ min_value_colorbar st + 20000 ≤ max_value_colorbar st
  ∧ ∀ r, r ∈ df_income_long st →
      min_value_colorbar st + 5000 ≤ avg_income r
      ≤ max_value_colorbar st - 5000.
Proof.
  intros Hst Hmod.
  destruct (startup_endpoints _ _ _ Hst Hmod)
    as (largest & smallest & [Hlin Hmax] & [Hsin Hmin] & Hml & Hms & -> & ->).
  pose proof (round_int_within largest Hml) as Hl.
  pose proof (round_int_within smallest Hms) as Hs.
  pose proof (round_int_mono smallest largest Hms Hml (Hmax _ Hsin)) as Hmono.
  destruct (round_int_multiple largest Hml) as [a Ha].
  destruct (round_int_multiple smallest Hms) as [b Hb].
  split_and!.
  - exists (b - 1). lia.
  - exists (a + 1). lia.
  - lia.
  - intros r Hr.
    assert (avg_income r ∈ avg_income <$> df_income_long st) as Hin
      by by apply list_elem_of_fmap_2.
    specialize (Hmax _ Hin). specialize (Hmin _ Hin). lia.
Qed.

Lemma color_range_margin_witness :
  (10000 | min_value_colorbar sample_state)
  ∧ (10000 | max_value_colorbar sample_state)
  ∧ min_value_colorbar sample_state + 20000 ≤ max_value_colorbar sample_state
  ∧ ∀ r, r ∈ df_income_long sample_state →
      min_value_colorbar sample_state + 5000 ≤ avg_income r
      ≤ max_value_colorbar sample_state - 5000.
Proof.
  apply (color_range_margin sample_features sample_csv sample_state).
  - vm_compute. reflexivity.
  - apply (bool_decide_unpack (Forall moderate _)). vm_compute. reflexivity.
Defined.

Lemma elem_of_range_items lo hi step x :
  0 < step →
  x ∈ range_items lo hi step ↔ lo ≤ x < hi ∧ (step | x - lo).
Proof.
  intros Hstep. rewrite list_elem_of_lookup. split.
  - intros [i Hi]. rewrite range_items_lookup in Hi.
    case_decide as Hlen; [|done]. injection Hi as <-.
    destruct (decide (lo < hi)) as [Hlt|Hge].
    + rewrite range_length_up in Hlen by done.
      pose proof (Z.mul_div_le (hi - 1 - lo) step Hstep) as Hq.
      split; [nia|]. exists (Z.of_nat i). lia.
    + unfold range_length in Hlen.
      destruct (Z.ltb_spec 0 step); [|lia].
      destruct (Z.ltb_spec lo hi); [lia|].
      destruct (Z.ltb_spec step 0); [lia|]. simpl in Hlen. lia.
  - intros [[Hlo Hhi] [k Hk]].
    assert (0 ≤ k) as Hk0 by nia.
    exists (Z.to_nat k). rewrite range_items_lookup.
    rewrite range_length_up by lia. rewrite Z2Nat.id by done.
    pose proof (Z.div_le_lower_bound (hi - 1 - lo) step k Hstep) as Hq.
    case_decide as Hlen; [f_equal; lia | exfalso; lia].
Qed.

(** X7: the ticks are exactly the values from [min_value_colorbar] up to,
    but not including, [max_value_colorbar] that are a multiple of 40,000
    above [min_value_colorbar]; for incomes of at most 10^15 in magnitude
    every tick is a multiple of 10,000. *)
Theorem colorbar_values_members (features : list Feature) (csv : WideFrame)
    (st : AppState) (x : Z) :
  startup features csv = Ok st →
  (x ∈ colorbar_values st
   ↔ min_value_colorbar st ≤ x < max_value_colorbar st
     ∧ (40000 | x - min_value_colorbar st))
  ∧ (Forall moderate (avg_income <$> df_income_long st) →
     x ∈ colorbar_values st → (10000 | x)).
Proof.
  intros Hst.
  destruct (startup_Ok_inv _ _ _ Hst)
    as (rows & _ & _ & _ & _ & _ & _ & -> & _).
  pose proof (elem_of_range_items (min_value_colorbar st)
                (max_value_colorbar st) 40000 x ltac:(done)) as Hiff.
  split; [exact Hiff|].
  intros Hmod Hx. apply Hiff in Hx as [_ [k Hk]].
  destruct (startup_endpoints _ _ _ Hst Hmod)
    as (_ & smallest & _ & _ & _ & Hms & _ & Hlo).
  destruct (round_int_multiple smallest Hms) as [b Hb].
  exists (4 * k + b - 1). lia.
Qed.

Lemma colorbar_values_members_witness :
  (300000 ∈ colorbar_values sample_state
   ↔ min_value_colorbar sample_state ≤ 300000 < max_value_colorbar sample_state
     ∧ (40000 | 300000 - min_value_colorbar sample_state))
  ∧ (300000 ∈ colorbar_values sample_state → (10000 | 300000)).
Proof.
  destruct (colorbar_values_members sample_features sample_csv sample_state
              300000) as [Hmembers Hmultiple].
  - vm_compute. reflexivity.
  - split; [exact Hmembers|]. apply Hmultiple.
    apply (bool_decide_unpack (Forall moderate _)). vm_compute. reflexivity.
Defined.

(** Above that magnitude a tick need not be a multiple of 10,000: [round]
    gives 9,000,000,000,000,010,240 for 9,000,000,000,000,010,000. *)
Example round_beyond_double_precision :
  PyNum.round_int 9000000000000010000 (-4) = 9000000000000010240.
Proof. vm_compute. reflexivity. Qed.

(** ** Every figure *)

Lemma income_in_range features csv st r :
  startup features csv = Ok st →
  Forall moderate (avg_income <$> df_income_long st) →
  r ∈ df_income_long st →
  min_value_colorbar st ≤ avg_income r ≤ max_value_colorbar st.
Proof.
  intros Hst Hmod Hr.
  destruct (startup_endpoints _ _ _ Hst Hmod)
    as (largest & smallest & [_ Hmax] & [_ Hmin] & Hml & Hms & -> & ->).
  pose proof (round_int_within largest Hml).
  pose proof (round_int_within smallest Hms).
  assert (avg_income r ∈ avg_income <$> df_income_long st) as Hin
    by by apply list_elem_of_fmap_2.
  specialize (Hmax _ Hin). specialize (Hmin _ Hin). lia.
Qed.

(** X8: whatever year is selected, the figure has one colour value and one
    custom-data triple per location; every location is the id of a feature
    of the geometry handed to the figure; the custom data of the region
    hold the name of that feature, the selected year and the colour value;
    and for incomes of at most 10^15 in magnitude the colour value lies
    within the colour range of the layout. *)
Theorem update_figure_regions (features : list Feature) (csv : WideFrame)
    (st : AppState) (selected_year : Z) :
  startup features csv = Ok st →
  ∃ fig,
    update_figure selected_year st = (fig, st)
    ∧ length (z (trace fig)) = length (locations (trace fig))
    ∧ length (customdata (trace fig)) = length (locations (trace fig))
    ∧ ∀ i fid,
        locations (trace fig) !! i = Some fid →
        ∃ feature v,
          feature ∈ geojson (trace fig)
          ∧ feature_id feature = fid
          ∧ z (trace fig) !! i = Some v
          ∧ customdata (trace fig) !! i
            = Some (navn feature, selected_year, v)
          ∧ (Forall moderate (avg_income <$> df_income_long st) →
             (range_color (layout fig)).1 ≤ v
             ≤ (range_color (layout fig)).2).
Proof.
  intros Hst. eexists. rewrite update_figure_unfold. split; [done|].
  simpl. rewrite !length_fmap. split_and!; [done..|].
  intros i fid. rewrite !list_lookup_fmap.
  destruct (filter_year selected_year (df_income_long st) !! i)
    as [r|] eqn:Hi; [|done].
  intros [= <-]. apply list_elem_of_lookup_2 in Hi.
  apply list_elem_of_filter in Hi as [Hyear Hr].
  destruct (startup_row_source _ _ _ _ Hst Hr)
    as (r0 & _ & _ & Hd & _ & Hid).
  destruct (startup_Ok_inv _ _ _ Hst) as (_ & _ & _ & Hgeo & _).
  destruct (build_id_map_Some _ _ _ Hid) as (feature & Hin & Hnavn & Hfid).
  exists feature, (avg_income r). simpl.
  rewrite Hgeo, Hnavn, <- Hd, Hyear. split_and!; [done..|].
  intros Hmod. exact (income_in_range _ _ _ _ Hst Hmod Hr).
Qed.

Lemma update_figure_regions_witness :
  ∃ fig,
    update_figure 2018 sample_state = (fig, sample_state)
    ∧ length (z (trace fig)) = length (locations (trace fig))
    ∧ length (customdata (trace fig)) = length (locations (trace fig))
    ∧ ∀ i fid,
        locations (trace fig) !! i = Some fid →
        ∃ feature v,
          feature ∈ geojson (trace fig)
          ∧ feature_id feature = fid
          ∧ z (trace fig) !! i = Some v
          ∧ customdata (trace fig) !! i = Some (navn feature, 2018, v)
          ∧ (range_color (layout fig)).1 ≤ v ≤ (range_color (layout fig)).2.
Proof.
  destruct (update_figure_regions sample_features sample_csv sample_state 2018)
    as (fig & Hfig & Hz & Hcustom & Hregions).
  - vm_compute. reflexivity.
  - exists fig. split_and!; [done..|].
    intros i fid Hi.
    destruct (Hregions i fid Hi)
      as (feature & v & Hin & Hfid & Hv & Hdata & Hrange).
    exists feature, v. split_and!; [done..| |]; apply Hrange;
      apply (bool_decide_unpack (Forall moderate _)); vm_compute; reflexivity.
Defined.

(** ** Years, column labels and slider marks *)

Lemma column_year_in_table features csv st col y :
  startup features csv = Ok st →
  rectangular csv →
  col ∈ wide_columns csv →
  PyStr.int col.1 = Ok y →
  y ∈ year <$> df_income_long st.
Proof.
  intros Hst Hrect Hcol Hy. destruct col as [label column].
  pose proof (startup_rows _ _ _ Hst) as Hrows.
  pose proof (startup_nonempty _ _ _ Hst) as Hne.
  apply list_elem_of_lookup in Hcol as [j Hj].
  destruct (clean_districts (wide_district csv)) as [|d ids] eqn:Hids.
  { destruct Hne. rewrite (melt_nil (clean csv)) in Hrows
      by (left; simpl; by rewrite Hids).
    by apply Forall2_nil_inv_l in Hrows. }
  destruct (rectangular_lookup csv j label column 0 Hrect Hj) as [v Hv].
  { pose proof (clean_districts_length (wide_district csv)) as Hlen.
    rewrite Hids in Hlen. simpl in Hlen. lia. }
  pose proof (melt_lookup (clean csv) 0 j d label column v
                (rectangular_clean _ Hrect)
                ltac:(by simpl; rewrite Hids) Hj Hv) as Hrow.
  destruct (Forall2_lookup_l _ _ _ _ _ Hrows Hrow) as (r' & Hr' & Hy' & _).
  simpl in Hy, Hy'. rewrite Hy in Hy'. injection Hy' as ->.
  apply list_elem_of_fmap_2. by eapply list_elem_of_lookup_2.
Qed.

Lemma table_year_of_column features csv st y :
  startup features csv = Ok st →
  y ∈ year <$> df_income_long st →
  ∃ col, col ∈ wide_columns csv ∧ PyStr.int col.1 = Ok y.
Proof.
  intros Hst Hy. apply list_elem_of_fmap in Hy as (r & -> & Hr).
  destruct (startup_row_source _ _ _ _ Hst Hr) as (r0 & Hr0 & Hy & _).
  apply elem_of_melt in Hr0 as (col & Hcol & Hyear & _).
  exists col. by rewrite <- Hyear.
Qed.

(** X10: for a rectangular CSV, the years of the long table are exactly the
    integers that the column labels of the CSV are cast to. *)
Theorem long_table_years (features : list Feature) (csv : WideFrame)
    (st : AppState) (y : Z) :
  startup features csv = Ok st →
  rectangular csv →
  y ∈ year <$> df_income_long st
  ↔ ∃ col, col ∈ wide_columns csv ∧ PyStr.int col.1 = Ok y.
Proof.
  intros Hst Hrect. split.
  - by apply (table_year_of_column features).
  - intros (col & Hcol & Hy).
    by apply (column_year_in_table features csv st col y).
Qed.

Lemma long_table_years_witness :
  2018 ∈ year <$> df_income_long sample_state
  ↔ ∃ col, col ∈ wide_columns sample_csv ∧ PyStr.int col.1 = Ok 2018.
Proof.
  apply (long_table_years sample_features sample_csv sample_state 2018).
  - vm_compute. reflexivity.
  - unfold rectangular. repeat constructor.
Defined.

(** X11: for a rectangular CSV, the slider has a mark exactly for every
    column label, keyed and labelled by the decimal notation of the year the
    label is cast to; a label that is already the decimal notation of its
    year is shown unchanged. *)
Theorem slider_marks_columns (features : list Feature) (csv : WideFrame)
    (st : AppState) :
  startup features csv = Ok st →
  rectangular csv →
  (∀ k v, slider_marks (year_slider st) !! k = Some v
     ↔ v = k ∧ ∃ col y, col ∈ wide_columns csv ∧ PyStr.int col.1 = Ok y
                 ∧ k = PyStr.str y)
  ∧ (∀ col y, col ∈ wide_columns csv → col.1 = PyStr.str y →
       slider_marks (year_slider st) !! col.1 = Some col.1).
Proof.
  intros Hst Hrect.
  assert (∀ k v, slider_marks (year_slider st) !! k = Some v
     ↔ v = k ∧ ∃ col y, col ∈ wide_columns csv ∧ PyStr.int col.1 = Ok y
                 ∧ k = PyStr.str y) as Hmarks.
  { intros k v. unfold year_slider; simpl. rewrite marks_of_lookup. split.
    - intros (y & Hy & -> & ->). split; [done|].
      rewrite elem_of_unique in Hy.
      destruct (table_year_of_column _ _ _ _ Hst Hy) as (col & Hcol & Hint).
      by exists col, y.
    - intros (-> & col & y & Hcol & Hint & ->).
      exists y. split_and!; [|done..].
      apply elem_of_unique.
      by apply (column_year_in_table features csv st col y). }
  split; [exact Hmarks|].
  intros col y Hcol Hlabel. apply Hmarks. split; [done|].
  exists col, y. split_and!; [done| |done].
  rewrite Hlabel. apply int_pretty_Z.
Qed.

Lemma slider_marks_columns_witness :
  (∀ k v, slider_marks (year_slider sample_state) !! k = Some v
     ↔ v = k ∧ ∃ col y, col ∈ wide_columns sample_csv
                 ∧ PyStr.int col.1 = Ok y ∧ k = PyStr.str y)
  ∧ (∀ col y, col ∈ wide_columns sample_csv → col.1 = PyStr.str y →
       slider_marks (year_slider sample_state) !! col.1 = Some col.1).
Proof.
  apply (slider_marks_columns sample_features sample_csv sample_state).
  - vm_compute. reflexivity.
  - unfold rectangular. repeat constructor.
Defined.

(** ** Tick labels against tick values *)

Lemma contains_app c s t :
  contains c (s +:+ t) ↔ contains c s ∨ contains c t.
Proof.
  induction s as [|c' s IH].
  - change ("" +:+ t) with t. simpl. tauto.
  - rewrite string_append_cons. simpl. rewrite IH. tauto.
Qed.

Lemma pretty_N_not_contains c (n : N) :
  (∀ x, pretty_N_char x ≠ c) → ¬ contains c (pretty n).
Proof.
  intros Hc. induction (N.lt_wf_0 n) as [n _ IH].
  destruct (decide (n < 10)%N) as [Hn|Hn].
  - rewrite pretty_N_digit by done. simpl. intros [Heq|[]]. by eapply Hc.
  - rewrite pretty_N_snoc, contains_app by lia. simpl.
    intros [Hin|[Heq|[]]]; [|by eapply Hc].
    eapply IH; [|done]. apply N.div_lt; lia.
Qed.

Lemma three_digits_not_contains c m :
  (∀ x, pretty_N_char x ≠ c) → ¬ contains c (three_digits m).
Proof.
  intros Hc. unfold three_digits. simpl.
  intros [Heq|[Heq|[Heq|[]]]]; by eapply Hc.
Qed.

Lemma replace_point_cons c s :
  PyStr.replace "." "" (String c s)
  = (if decide (c = "."%char) then "" else String c "")
    +:+ PyStr.replace "." "" s.
Proof.
  unfold PyStr.replace. cbn [PyStr.replace_from String.prefix].
  destruct (ascii_dec "." c) as [<-|Hc].
  - rewrite decide_True by done. by destruct s.
  - rewrite decide_False by done. done.
Qed.

Lemma replace_point_app s t :
  PyStr.replace "." "" (s +:+ t)
  = PyStr.replace "." "" s +:+ PyStr.replace "." "" t.
Proof.
  induction s as [|c s IH]; [done|].
  by rewrite string_append_cons, !replace_point_cons, IH, string_append_assoc.
Qed.

Lemma replace_point_free s :
  ¬ contains "." s → PyStr.replace "." "" s = s.
Proof.
  induction s as [|c s IH]; [done|]. intros Hs. simpl in Hs.
  rewrite replace_point_cons, decide_False, IH by tauto. done.
Qed.

Lemma digit_not_point x : pretty_N_char x ≠ "."%char.
Proof. apply (pretty_N_char_cases (λ c, c ≠ "."%char)); done. Qed.

Lemma dot_grouped_read n s :
  dot_grouped n s → PyStr.replace "." "" s = pretty n ∧ ¬ contains "," s.
Proof.
  induction 1 as [n Hn|n s Hn _ [IHs IHc]].
  - split.
    + apply replace_point_free, pretty_N_not_contains, digit_not_point.
    + apply pretty_N_not_contains, pretty_N_char_comma.
  - change ("." +:+ three_digits (n `mod` 1000))
      with (String "." (three_digits (n `mod` 1000))).
    split.
    + rewrite replace_point_app, IHs, replace_point_cons, decide_True by done.
      rewrite replace_point_free
        by apply three_digits_not_contains, digit_not_point.
      change ("" +:+ ?t) with t. by rewrite <- pretty_N_thousands.
    + rewrite contains_app. intros [Hs|Ht]; [done|].
      simpl in Ht. destruct Ht as [Ht|Ht]; [done|].
      eapply three_digits_not_contains; [|exact Ht].
      apply pretty_N_char_comma.
Qed.

Lemma tick_text_read (n : Z) :
  PyStr.replace "." "" (PyStr.replace "," "." (PyStr.format_comma_d n))
  = PyStr.str n
  ∧ ¬ contains "," (PyStr.replace "," "." (PyStr.format_comma_d n)).
Proof.
  pose proof (format_dot_separated n) as Hsep. unfold dot_separated in Hsep.
  destruct n as [|p|p].
  - rewrite decide_False in Hsep by lia. by apply dot_grouped_read in Hsep.
  - rewrite decide_False in Hsep by lia. by apply dot_grouped_read in Hsep.
  - rewrite decide_True in Hsep by lia. destruct Hsep as (s' & -> & Hs').
    apply dot_grouped_read in Hs' as [Hread Hcomma]. split.
    + rewrite string_append_cons, replace_point_cons, decide_False by done.
      change ("" +:+ ?t) with t. by rewrite Hread.
    + rewrite string_append_cons. simpl. intros [Heq|Hin]; [done|].
      by apply Hcomma.
Qed.

(** X12: in every figure the tick labels pair up with the tick values: the
    [i]-th label has no comma and, with its dots taken out, is [str] of the
    [i]-th value, which [int] reads back; and every tick value lies in the
    colour range of the layout, below its upper end. *)
Theorem figure_tick_labels (features : list Feature) (csv : WideFrame)
    (st : AppState) (selected_year : Z) :
  startup features csv = Ok st →
  ∃ fig,
    update_figure selected_year st = (fig, st)
    ∧ length (ticktext (layout fig)) = length (tickvals (layout fig))
    ∧ ∀ i n,
        tickvals (layout fig) !! i = Some n →
        (range_color (layout fig)).1 ≤ n < (range_color (layout fig)).2
        ∧ ∃ s,
            ticktext (layout fig) !! i = Some s
            ∧ ¬ contains "," s
            ∧ PyStr.replace "." "" s = PyStr.str n
            ∧ PyStr.int (PyStr.replace "." "" s) = Ok n.
Proof.
  intros Hst. eexists. rewrite update_figure_unfold. split; [done|]. simpl.
  destruct (startup_Ok_inv _ _ _ Hst)
    as (_ & _ & _ & _ & _ & _ & _ & Hvalues & -> & _).
  rewrite colorbar_text_dot_of_fmap. unfold colorbar_text_of.
  rewrite !length_fmap. split; [done|].
  intros i n Hn. split.
  - apply list_elem_of_lookup_2 in Hn. rewrite Hvalues in Hn.
    by apply elem_of_range_items in Hn as [Hn _].
  - rewrite !list_lookup_fmap, Hn. simpl.
    destruct (tick_text_read n) as [Hread Hcomma].
    exists (PyStr.replace "," "." (PyStr.format_comma_d n)).
    split_and!; [done..|].
    change (PyStr.replace_from "." "" 0 ?t) with (PyStr.replace "." "" t).
    rewrite Hread. apply int_pretty_Z.
Qed.

Lemma figure_tick_labels_witness :
  ∃ fig,
    update_figure 2019 sample_state = (fig, sample_state)
    ∧ length (ticktext (layout fig)) = length (tickvals (layout fig))
    ∧ ∀ i n,
        tickvals (layout fig) !! i = Some n →
        (range_color (layout fig)).1 ≤ n < (range_color (layout fig)).2
        ∧ ∃ s,
            ticktext (layout fig) !! i = Some s
            ∧ ¬ contains "," s
            ∧ PyStr.replace "." "" s = PyStr.str n
            ∧ PyStr.int (PyStr.replace "." "" s) = Ok n.
Proof.
  apply (figure_tick_labels sample_features sample_csv sample_state 2019).
  vm_compute. reflexivity.
Defined.

(** ** Labels that are not integer literals *)

Lemma contains_lstrip c s :
  PyStr.isspace c = false → contains c s → contains c (PyStr.lstrip s).
Proof.
  intros Hc. induction s as [|c' s IH]; [done|].
  intros Hin. cbn [PyStr.lstrip].
  destruct (PyStr.isspace c') eqn:Hc'; [|done].
  apply IH. destruct Hin as [->|Hin]; [congruence|done].
Qed.

Lemma contains_rev c s : contains c s → contains c (String.rev s).
Proof.
  induction s as [|c' s IH]; [done|].
  rewrite string_rev_cons, contains_app. simpl. intros [->|Hin]; [tauto|].
  left. by apply IH.
Qed.

Lemma contains_strip c s :
  PyStr.isspace c = false → contains c s → contains c (PyStr.strip s).
Proof.
  intros Hc Hin. unfold PyStr.strip.
  by apply contains_rev, contains_lstrip, contains_rev, contains_lstrip.
Qed.

Lemma digits_value_stray c acc b s :
  Ascii.is_nat c = None → c ≠ "_"%char → contains c s →
  PyStr.digits_value acc b s = None.
Proof.
  intros Hnat Hunder. revert acc b.
  induction s as [|c' s IH]; intros acc b Hin; [done|].
  cbn [PyStr.digits_value]. destruct Hin as [->|Hin].
  - rewrite bool_decide_eq_false_2 by done. by rewrite Hnat.
  - case_bool_decide.
    + destruct b; [by apply IH | done].
    + destruct (Ascii.is_nat c'); [by apply IH | done].
Qed.

(** X13: a label with a character that is neither a digit, an underscore,
    a sign nor whitespace is not an integer literal: the cast raises
    [ValueError] for it.  The label "2018.1" that [read_csv] gives to a
    second column headed 2018 is such a label. *)
Theorem int_stray_character (c : ascii) (label : string) :
  contains c label →
  PyStr.isspace c = false →
  Ascii.is_nat c = None →
  c ≠ "_"%char → c ≠ "-"%char → c ≠ "+"%char →
  PyStr.int label = Err (ValueError label).
Proof.
  intros Hin Hspace Hnat Hunder Hminus Hplus.
  apply int_Err. intros [y Hy]. unfold PyStr.int in Hy.
  pose proof (contains_strip c label Hspace Hin) as Hbody.
  destruct (PyStr.strip label) as [|c0 r]; [done|].
  assert (PyStr.digits_value 0 false (String c0 r) = None) as Hall
    by by apply (digits_value_stray c).
  assert (c0 = "-"%char ∨ c0 = "+"%char →
          PyStr.digits_value 0 false r = None) as Hsign.
  { intros Hc0. apply (digits_value_stray c); [done..|].
    destruct Hbody as [<-|Hr]; [|done]. by destruct Hc0. }
  destruct c0 as [[] [] [] [] [] [] [] []]; cbv zeta in Hy;
    first [ by rewrite Hall in Hy
          | by rewrite Hsign in Hy by (by left)
          | by rewrite Hsign in Hy by (by right) ].
Qed.

Lemma int_stray_character_witness :
  PyStr.int "2018.1" = Err (ValueError "2018.1").
Proof.
  apply (int_stray_character "."%char "2018.1").
  - do 4 right. by left.
  - reflexivity.
  - reflexivity.
  - discriminate.
  - discriminate.
  - discriminate.
Defined.

